(** * Verification of the news pipeline of scripts/generate_site.py

    Shallow embedding of the ingestion-to-sections core of
    [scripts/generate_site.py]: [normalize_title], [classify], [score_item],
    [safe_parse_dt], [load_sources], [fetch_items], [dedup], [pick_sections]
    and the part of [main] that wires them together; and of the rendering
    side: [render_section], [render_all_rows], [render_pager],
    [detect_site_base], [url_join], [html_page] and [build_all_pages].

    Modelling conventions.
    - A Python [str] is a list of Unicode code points ([ustr]).
    - Python floats are modelled as exact rationals ([Q]); [round(x, 1)] is
      rounding half to even to tenths of the exact value.
    - [str.lower] is CPython 3.11's: the full lower-case mapping of
      Unicode 14.0 and the final-sigma rule, as data tables.
    - A [datetime] is its wall time in seconds since 0001-01-01T00:00:00 and
      its UTC offset ([None] when naive); the valid range is years 1..9999.
    - A time zone ([pytz] zone) is the function giving its UTC offset for a
      UTC wall time.
    - External collaborators ([feedparser.parse], [dateutil.parser.parse],
      the YAML loader's number parsing) are explicit function arguments; so
      are, for rendering, [str] of a float and of other values,
      [datetime.fromisoformat], the local UTC offset and [strftime].
    - File writes of [build_all_pages] are the list of (directory, page)
      pairs written, in order. *)

From Stdlib Require Import ZArith QArith Qround List Bool String Ascii.
From Stdlib Require Import Sorting.Sorted Sorting.Permutation Lia Lqa.
Import ListNotations.

#[local] Set Warnings "-register-all".
Open Scope string_scope.
Open Scope Z_scope.
Open Scope list_scope.

(** ** Python strings *)

Definition ustr := list Z.

(** ASCII string literal as a Python [str]. *)
Fixpoint u (s : string) : ustr :=
  match s with
  | EmptyString => []
  | String c r => Z.of_nat (nat_of_ascii c) :: u r
  end.

Definition ustr_eqb (a b : ustr) : bool :=
  if list_eq_dec Z.eq_dec a b then true else false.

(** Python's [str] ordering: lexicographic on code points. *)
Fixpoint ustr_ltb (a b : ustr) : bool :=
  match a, b with
  | [], [] => false
  | [], _ :: _ => true
  | _ :: _, [] => false
  | x :: a', y :: b' => if (x <? y)%Z then true else if (y <? x)%Z then false else ustr_ltb a' b'
  end.

(** [Py_UNICODE_ISSPACE]: the characters matched by [\s] and removed by
    [str.strip()]. *)
Definition is_space (c : Z) : bool :=
  ((9 <=? c) && (c <=? 13)) || ((28 <=? c) && (c <=? 32)) || (c =? 133) || (c =? 160)
  || (c =? 5760) || ((8192 <=? c) && (c <=? 8202)) || (c =? 8232) || (c =? 8233)
  || (c =? 8239) || (c =? 8287) || (c =? 12288).

(** [str.lower()] follows the Unicode 14.0 case mappings of CPython 3.11
    ([Objects/unicodeobject.c], [do_lower] and [handle_capital_sigma]).

    Simple lower-case mappings, as runs [(lo, hi, step, delta)]: every code
    point [c] of [lo..hi] with [c - lo] a multiple of [step] maps to
    [c + delta]; code points in no run map to themselves. *)
Definition lower_runs : list (Z * Z * Z * Z) :=
  [
   (65, 90, 1, 32); (192, 214, 1, 32); (216, 222, 1, 32); (256, 302, 2, 1);
   (306, 310, 2, 1); (313, 327, 2, 1); (330, 374, 2, 1); (376, 376, 1, -121);
   (377, 381, 2, 1); (385, 385, 1, 210); (386, 388, 2, 1); (390, 390, 1, 206);
   (391, 391, 1, 1); (393, 394, 1, 205); (395, 395, 1, 1); (398, 398, 1, 79);
   (399, 399, 1, 202); (400, 400, 1, 203); (401, 401, 1, 1); (403, 403, 1, 205);
   (404, 404, 1, 207); (406, 406, 1, 211); (407, 407, 1, 209); (408, 408, 1, 1);
   (412, 412, 1, 211); (413, 413, 1, 213); (415, 415, 1, 214); (416, 420, 2, 1);
   (422, 422, 1, 218); (423, 423, 1, 1); (425, 425, 1, 218); (428, 428, 1, 1);
   (430, 430, 1, 218); (431, 431, 1, 1); (433, 434, 1, 217); (435, 437, 2, 1);
   (439, 439, 1, 219); (440, 440, 1, 1); (444, 444, 1, 1); (452, 452, 1, 2);
   (453, 453, 1, 1); (455, 455, 1, 2); (456, 456, 1, 1); (458, 458, 1, 2);
   (459, 475, 2, 1); (478, 494, 2, 1); (497, 497, 1, 2); (498, 500, 2, 1);
   (502, 502, 1, -97); (503, 503, 1, -56); (504, 542, 2, 1); (544, 544, 1, -130);
   (546, 562, 2, 1); (570, 570, 1, 10795); (571, 571, 1, 1); (573, 573, 1, -163);
   (574, 574, 1, 10792); (577, 577, 1, 1); (579, 579, 1, -195); (580, 580, 1, 69);
   (581, 581, 1, 71); (582, 590, 2, 1); (880, 882, 2, 1); (886, 886, 1, 1);
   (895, 895, 1, 116); (902, 902, 1, 38); (904, 906, 1, 37); (908, 908, 1, 64);
   (910, 911, 1, 63); (913, 929, 1, 32); (932, 939, 1, 32); (975, 975, 1, 8);
   (984, 1006, 2, 1); (1012, 1012, 1, -60); (1015, 1015, 1, 1); (1017, 1017, 1, -7);
   (1018, 1018, 1, 1); (1021, 1023, 1, -130); (1024, 1039, 1, 80); (1040, 1071, 1, 32);
   (1120, 1152, 2, 1); (1162, 1214, 2, 1); (1216, 1216, 1, 15); (1217, 1229, 2, 1);
   (1232, 1326, 2, 1); (1329, 1366, 1, 48); (4256, 4293, 1, 7264); (4295, 4295, 1, 7264);
   (4301, 4301, 1, 7264); (5024, 5103, 1, 38864); (5104, 5109, 1, 8); (7312, 7354, 1, -3008);
   (7357, 7359, 1, -3008); (7680, 7828, 2, 1); (7838, 7838, 1, -7615); (7840, 7934, 2, 1);
   (7944, 7951, 1, -8); (7960, 7965, 1, -8); (7976, 7983, 1, -8); (7992, 7999, 1, -8);
   (8008, 8013, 1, -8); (8025, 8031, 2, -8); (8040, 8047, 1, -8); (8072, 8079, 1, -8);
   (8088, 8095, 1, -8); (8104, 8111, 1, -8); (8120, 8121, 1, -8); (8122, 8123, 1, -74);
   (8124, 8124, 1, -9); (8136, 8139, 1, -86); (8140, 8140, 1, -9); (8152, 8153, 1, -8);
   (8154, 8155, 1, -100); (8168, 8169, 1, -8); (8170, 8171, 1, -112); (8172, 8172, 1, -7);
   (8184, 8185, 1, -128); (8186, 8187, 1, -126); (8188, 8188, 1, -9); (8486, 8486, 1, -7517);
   (8490, 8490, 1, -8383); (8491, 8491, 1, -8262); (8498, 8498, 1, 28); (8544, 8559, 1, 16);
   (8579, 8579, 1, 1); (9398, 9423, 1, 26); (11264, 11311, 1, 48); (11360, 11360, 1, 1);
   (11362, 11362, 1, -10743); (11363, 11363, 1, -3814); (11364, 11364, 1, -10727); (11367, 11371, 2, 1);
   (11373, 11373, 1, -10780); (11374, 11374, 1, -10749); (11375, 11375, 1, -10783); (11376, 11376, 1, -10782);
   (11378, 11378, 1, 1); (11381, 11381, 1, 1); (11390, 11391, 1, -10815); (11392, 11490, 2, 1);
   (11499, 11501, 2, 1); (11506, 11506, 1, 1); (42560, 42604, 2, 1); (42624, 42650, 2, 1);
   (42786, 42798, 2, 1); (42802, 42862, 2, 1); (42873, 42875, 2, 1); (42877, 42877, 1, -35332);
   (42878, 42886, 2, 1); (42891, 42891, 1, 1); (42893, 42893, 1, -42280); (42896, 42898, 2, 1);
   (42902, 42920, 2, 1); (42922, 42922, 1, -42308); (42923, 42923, 1, -42319); (42924, 42924, 1, -42315);
   (42925, 42925, 1, -42305); (42926, 42926, 1, -42308); (42928, 42928, 1, -42258); (42929, 42929, 1, -42282);
   (42930, 42930, 1, -42261); (42931, 42931, 1, 928); (42932, 42946, 2, 1); (42948, 42948, 1, -48);
   (42949, 42949, 1, -42307); (42950, 42950, 1, -35384); (42951, 42953, 2, 1); (42960, 42960, 1, 1);
   (42966, 42968, 2, 1); (42997, 42997, 1, 1); (65313, 65338, 1, 32); (66560, 66599, 1, 40);
   (66736, 66771, 1, 40); (66928, 66938, 1, 39); (66940, 66954, 1, 39); (66956, 66962, 1, 39);
   (66964, 66965, 1, 39); (68736, 68786, 1, 64); (71840, 71871, 1, 32); (93760, 93791, 1, 32);
   (125184, 125217, 1, 34)].

(** Code points that are case-ignorable (Unicode property Case_Ignorable). *)
Definition case_ignorable_ranges : list (Z * Z) :=
  [
   (39, 39); (46, 46); (58, 58); (94, 94); (96, 96); (168, 168);
   (173, 173); (175, 175); (180, 180); (183, 184); (688, 879); (884, 885);
   (890, 890); (900, 901); (903, 903); (1155, 1161); (1369, 1369); (1375, 1375);
   (1425, 1469); (1471, 1471); (1473, 1474); (1476, 1477); (1479, 1479); (1524, 1524);
   (1536, 1541); (1552, 1562); (1564, 1564); (1600, 1600); (1611, 1631); (1648, 1648);
   (1750, 1757); (1759, 1768); (1770, 1773); (1807, 1807); (1809, 1809); (1840, 1866);
   (1958, 1968); (2027, 2037); (2042, 2042); (2045, 2045); (2070, 2093); (2137, 2139);
   (2184, 2184); (2192, 2193); (2200, 2207); (2249, 2306); (2362, 2362); (2364, 2364);
   (2369, 2376); (2381, 2381); (2385, 2391); (2402, 2403); (2417, 2417); (2433, 2433);
   (2492, 2492); (2497, 2500); (2509, 2509); (2530, 2531); (2558, 2558); (2561, 2562);
   (2620, 2620); (2625, 2626); (2631, 2632); (2635, 2637); (2641, 2641); (2672, 2673);
   (2677, 2677); (2689, 2690); (2748, 2748); (2753, 2757); (2759, 2760); (2765, 2765);
   (2786, 2787); (2810, 2815); (2817, 2817); (2876, 2876); (2879, 2879); (2881, 2884);
   (2893, 2893); (2901, 2902); (2914, 2915); (2946, 2946); (3008, 3008); (3021, 3021);
   (3072, 3072); (3076, 3076); (3132, 3132); (3134, 3136); (3142, 3144); (3146, 3149);
   (3157, 3158); (3170, 3171); (3201, 3201); (3260, 3260); (3263, 3263); (3270, 3270);
   (3276, 3277); (3298, 3299); (3328, 3329); (3387, 3388); (3393, 3396); (3405, 3405);
   (3426, 3427); (3457, 3457); (3530, 3530); (3538, 3540); (3542, 3542); (3633, 3633);
   (3636, 3642); (3654, 3662); (3761, 3761); (3764, 3772); (3782, 3782); (3784, 3789);
   (3864, 3865); (3893, 3893); (3895, 3895); (3897, 3897); (3953, 3966); (3968, 3972);
   (3974, 3975); (3981, 3991); (3993, 4028); (4038, 4038); (4141, 4144); (4146, 4151);
   (4153, 4154); (4157, 4158); (4184, 4185); (4190, 4192); (4209, 4212); (4226, 4226);
   (4229, 4230); (4237, 4237); (4253, 4253); (4348, 4348); (4957, 4959); (5906, 5908);
   (5938, 5939); (5970, 5971); (6002, 6003); (6068, 6069); (6071, 6077); (6086, 6086);
   (6089, 6099); (6103, 6103); (6109, 6109); (6155, 6159); (6211, 6211); (6277, 6278);
   (6313, 6313); (6432, 6434); (6439, 6440); (6450, 6450); (6457, 6459); (6679, 6680);
   (6683, 6683); (6742, 6742); (6744, 6750); (6752, 6752); (6754, 6754); (6757, 6764);
   (6771, 6780); (6783, 6783); (6823, 6823); (6832, 6862); (6912, 6915); (6964, 6964);
   (6966, 6970); (6972, 6972); (6978, 6978); (7019, 7027); (7040, 7041); (7074, 7077);
   (7080, 7081); (7083, 7085); (7142, 7142); (7144, 7145); (7149, 7149); (7151, 7153);
   (7212, 7219); (7222, 7223); (7288, 7293); (7376, 7378); (7380, 7392); (7394, 7400);
   (7405, 7405); (7412, 7412); (7416, 7417); (7468, 7530); (7544, 7544); (7579, 7679);
   (8125, 8125); (8127, 8129); (8141, 8143); (8157, 8159); (8173, 8175); (8189, 8190);
   (8203, 8207); (8216, 8217); (8228, 8228); (8231, 8231); (8234, 8238); (8288, 8292);
   (8294, 8303); (8305, 8305); (8319, 8319); (8336, 8348); (8400, 8432); (11388, 11389);
   (11503, 11505); (11631, 11631); (11647, 11647); (11744, 11775); (11823, 11823); (12293, 12293);
   (12330, 12333); (12337, 12341); (12347, 12347); (12441, 12446); (12540, 12542); (40981, 40981);
   (42232, 42237); (42508, 42508); (42607, 42610); (42612, 42621); (42623, 42623); (42652, 42655);
   (42736, 42737); (42752, 42785); (42864, 42864); (42888, 42890); (42994, 42996); (43000, 43001);
   (43010, 43010); (43014, 43014); (43019, 43019); (43045, 43046); (43052, 43052); (43204, 43205);
   (43232, 43249); (43263, 43263); (43302, 43309); (43335, 43345); (43392, 43394); (43443, 43443);
   (43446, 43449); (43452, 43453); (43471, 43471); (43493, 43494); (43561, 43566); (43569, 43570);
   (43573, 43574); (43587, 43587); (43596, 43596); (43632, 43632); (43644, 43644); (43696, 43696);
   (43698, 43700); (43703, 43704); (43710, 43711); (43713, 43713); (43741, 43741); (43756, 43757);
   (43763, 43764); (43766, 43766); (43867, 43871); (43881, 43883); (44005, 44005); (44008, 44008);
   (44013, 44013); (64286, 64286); (64434, 64450); (65024, 65039); (65043, 65043); (65056, 65071);
   (65106, 65106); (65109, 65109); (65279, 65279); (65287, 65287); (65294, 65294); (65306, 65306);
   (65342, 65342); (65344, 65344); (65392, 65392); (65438, 65439); (65507, 65507); (65529, 65531);
   (66045, 66045); (66272, 66272); (66422, 66426); (67456, 67461); (67463, 67504); (67506, 67514);
   (68097, 68099); (68101, 68102); (68108, 68111); (68152, 68154); (68159, 68159); (68325, 68326);
   (68900, 68903); (69291, 69292); (69446, 69456); (69506, 69509); (69633, 69633); (69688, 69702);
   (69744, 69744); (69747, 69748); (69759, 69761); (69811, 69814); (69817, 69818); (69821, 69821);
   (69826, 69826); (69837, 69837); (69888, 69890); (69927, 69931); (69933, 69940); (70003, 70003);
   (70016, 70017); (70070, 70078); (70089, 70092); (70095, 70095); (70191, 70193); (70196, 70196);
   (70198, 70199); (70206, 70206); (70367, 70367); (70371, 70378); (70400, 70401); (70459, 70460);
   (70464, 70464); (70502, 70508); (70512, 70516); (70712, 70719); (70722, 70724); (70726, 70726);
   (70750, 70750); (70835, 70840); (70842, 70842); (70847, 70848); (70850, 70851); (71090, 71093);
   (71100, 71101); (71103, 71104); (71132, 71133); (71219, 71226); (71229, 71229); (71231, 71232);
   (71339, 71339); (71341, 71341); (71344, 71349); (71351, 71351); (71453, 71455); (71458, 71461);
   (71463, 71467); (71727, 71735); (71737, 71738); (71995, 71996); (71998, 71998); (72003, 72003);
   (72148, 72151); (72154, 72155); (72160, 72160); (72193, 72202); (72243, 72248); (72251, 72254);
   (72263, 72263); (72273, 72278); (72281, 72283); (72330, 72342); (72344, 72345); (72752, 72758);
   (72760, 72765); (72767, 72767); (72850, 72871); (72874, 72880); (72882, 72883); (72885, 72886);
   (73009, 73014); (73018, 73018); (73020, 73021); (73023, 73029); (73031, 73031); (73104, 73105);
   (73109, 73109); (73111, 73111); (73459, 73460); (78896, 78904); (92912, 92916); (92976, 92982);
   (92992, 92995); (94031, 94031); (94095, 94111); (94176, 94177); (94179, 94180); (110576, 110579);
   (110581, 110587); (110589, 110590); (113821, 113822); (113824, 113827); (118528, 118573); (118576, 118598);
   (119143, 119145); (119155, 119170); (119173, 119179); (119210, 119213); (119362, 119364); (121344, 121398);
   (121403, 121452); (121461, 121461); (121476, 121476); (121499, 121503); (121505, 121519); (122880, 122886);
   (122888, 122904); (122907, 122913); (122915, 122916); (122918, 122922); (123184, 123197); (123566, 123566);
   (123628, 123631); (125136, 125142); (125252, 125259); (127995, 127999); (917505, 917505); (917536, 917631);
   (917760, 917999)].

(** Code points that are cased and not case-ignorable: the only ones the
    Final_Sigma test asks [_PyUnicode_IsCased] about. *)
Definition cased_ranges : list (Z * Z) :=
  [
   (65, 90); (97, 122); (170, 170); (181, 181); (186, 186); (192, 214);
   (216, 246); (248, 442); (444, 447); (452, 659); (661, 687); (880, 883);
   (886, 887); (891, 893); (895, 895); (902, 902); (904, 906); (908, 908);
   (910, 929); (931, 1013); (1015, 1153); (1162, 1327); (1329, 1366); (1376, 1416);
   (4256, 4293); (4295, 4295); (4301, 4301); (4304, 4346); (4349, 4351); (5024, 5109);
   (5112, 5117); (7296, 7304); (7312, 7354); (7357, 7359); (7424, 7467); (7531, 7543);
   (7545, 7578); (7680, 7957); (7960, 7965); (7968, 8005); (8008, 8013); (8016, 8023);
   (8025, 8025); (8027, 8027); (8029, 8029); (8031, 8061); (8064, 8116); (8118, 8124);
   (8126, 8126); (8130, 8132); (8134, 8140); (8144, 8147); (8150, 8155); (8160, 8172);
   (8178, 8180); (8182, 8188); (8450, 8450); (8455, 8455); (8458, 8467); (8469, 8469);
   (8473, 8477); (8484, 8484); (8486, 8486); (8488, 8488); (8490, 8493); (8495, 8500);
   (8505, 8505); (8508, 8511); (8517, 8521); (8526, 8526); (8544, 8575); (8579, 8580);
   (9398, 9449); (11264, 11387); (11390, 11492); (11499, 11502); (11506, 11507); (11520, 11557);
   (11559, 11559); (11565, 11565); (42560, 42605); (42624, 42651); (42786, 42863); (42865, 42887);
   (42891, 42894); (42896, 42954); (42960, 42961); (42963, 42963); (42965, 42969); (42997, 42998);
   (43002, 43002); (43824, 43866); (43872, 43880); (43888, 43967); (64256, 64262); (64275, 64279);
   (65313, 65338); (65345, 65370); (66560, 66639); (66736, 66771); (66776, 66811); (66928, 66938);
   (66940, 66954); (66956, 66962); (66964, 66965); (66967, 66977); (66979, 66993); (66995, 67001);
   (67003, 67004); (68736, 68786); (68800, 68850); (71840, 71903); (93760, 93823); (119808, 119892);
   (119894, 119964); (119966, 119967); (119970, 119970); (119973, 119974); (119977, 119980); (119982, 119993);
   (119995, 119995); (119997, 120003); (120005, 120069); (120071, 120074); (120077, 120084); (120086, 120092);
   (120094, 120121); (120123, 120126); (120128, 120132); (120134, 120134); (120138, 120144); (120146, 120485);
   (120488, 120512); (120514, 120538); (120540, 120570); (120572, 120596); (120598, 120628); (120630, 120654);
   (120656, 120686); (120688, 120712); (120714, 120744); (120746, 120770); (120772, 120779); (122624, 122633);
   (122635, 122654); (125184, 125251); (127280, 127305); (127312, 127337); (127344, 127369)].

Definition in_run (r : Z * Z * Z * Z) (c : Z) : bool :=
  let '(lo, hi, step, _) := r in (lo <=? c) && (c <=? hi) && ((c - lo) mod step =? 0).

(** [_PyUnicode_ToLowerFull]: U+0130 is the only code point whose lower
    case has two code points. *)
Definition lower_full (c : Z) : ustr :=
  if c =? 304 then [105; 775]
  else match find (fun r => in_run r c) lower_runs with
       | Some (_, _, _, delta) => [c + delta]
       | None => [c]
       end.

Definition in_ranges (rs : list (Z * Z)) (c : Z) : bool :=
  existsb (fun r => (fst r <=? c) && (c <=? snd r)) rs.

(** [_PyUnicode_IsCaseIgnorable] *)
Definition case_ignorable (c : Z) : bool := in_ranges case_ignorable_ranges c.

(** [_PyUnicode_IsCased], on code points that are not case-ignorable. *)
Definition cased (c : Z) : bool := in_ranges cased_ranges c.

(** The first code point of [s] that is not case-ignorable. *)
Fixpoint skip_case_ignorable (s : ustr) : option Z :=
  match s with
  | [] => None
  | c :: r => if case_ignorable c then skip_case_ignorable r else Some c
  end.

(** [handle_capital_sigma]: a capital sigma is final when the nearest
    code point before it that is not case-ignorable exists and is cased,
    and the nearest such code point after it does not exist or is not
    cased. [before] is the text before the sigma, nearest first; [after]
    is the text after it. *)
Definition final_sigma (before after : ustr) : bool :=
  match skip_case_ignorable before with
  | Some c =>
      cased c && match skip_case_ignorable after with
                 | Some d => negb (cased d)
                 | None => true
                 end
  | None => false
  end.

(** [lower_ucs4]: U+03A3 becomes U+03C2 when final, U+03C3 otherwise. *)
Definition lower_at (before after : ustr) (c : Z) : ustr :=
  if c =? 931 then [if final_sigma before after then 962 else 963]
  else lower_full c.

(** [do_lower]; [before] holds the code points already read, nearest first. *)
Fixpoint lower_go (before s : ustr) : ustr :=
  match s with
  | [] => []
  | c :: r => lower_at before r c ++ lower_go (c :: before) r
  end.

(** [str.lower()] *)
Definition lower (s : ustr) : ustr := lower_go [] s.

Fixpoint lstrip (s : ustr) : ustr :=
  match s with
  | [] => []
  | c :: r => if is_space c then lstrip r else s
  end.

(** [str.strip()] *)
Definition strip (s : ustr) : ustr := rev (lstrip (rev (lstrip s))).

(** [re.sub(r"\s+", " ", s)]: [in_run] says the previous character was
    whitespace already replaced by the single space. *)
Fixpoint collapse_ws (in_run : bool) (s : ustr) : ustr :=
  match s with
  | [] => []
  | c :: r =>
      if is_space c then (if in_run then collapse_ws true r else 32 :: collapse_ws true r)
      else c :: collapse_ws false r
  end.

(** The character class of the first removal in [normalize_title]: U+201C,
    U+201D, the straight double quote, the apostrophe, U+2019 and the
    backtick. *)
Definition quote_chars : list Z := [8220; 8221; 34; 39; 8217; 96].

(** The character class of the bracket removal: [ ] ( ) { } . *)
Definition bracket_chars : list Z := [91; 93; 40; 41; 123; 125].

Definition mem_Z (c : Z) (l : list Z) : bool := existsb (Z.eqb c) l.

(** [re.sub(r"[...]", "", s)] *)
Definition remove_chars (cs : list Z) (s : ustr) : ustr :=
  filter (fun c => negb (mem_Z c cs)) s.

(** [normalize_title] *)
Definition normalize_title (s : ustr) : ustr :=
  let s := strip (lower s) in
  let s := collapse_ws false s in
  let s := remove_chars quote_chars s in
  remove_chars bracket_chars s.

(** [k in t] for strings: [k] is a substring of [t]. *)
Fixpoint is_prefix (k t : ustr) : bool :=
  match k, t with
  | [], _ => true
  | _ :: _, [] => false
  | x :: k', y :: t' => (x =? y)%Z && is_prefix k' t'
  end.

Fixpoint contains (k t : ustr) : bool :=
  is_prefix k t || match t with [] => false | _ :: t' => contains k t' end.

(** [any(k in t for k in ks)] *)
Definition any_in (ks : list string) (t : ustr) : bool :=
  existsb (fun k => contains (u k) t) ks.

(** ** Loaded YAML values

    The values [yaml.safe_load] produces: [None], booleans, numbers (ints and
    floats), strings, lists and dicts (kept as association lists in document
    order, keys unique). *)

Inductive yaml :=
| YNull
| YBool (b : bool)
| YNum (q : Q)
| YStr (s : ustr)
| YSeq (l : list yaml)
| YMap (kv : list (yaml * yaml)).

Definition Q_eq_dec_struct (p q : Q) : {p = q} + {p <> q}.
Proof. decide equality; [apply Pos.eq_dec | apply Z.eq_dec]. Defined.

Fixpoint yaml_eq_dec (a b : yaml) {struct a} : {a = b} + {a <> b}.
Proof.
  refine (match a, b with
  | YNull, YNull => left eq_refl
  | YBool x, YBool y => match bool_dec x y with left e => left _ | right n => right _ end
  | YNum x, YNum y => match Q_eq_dec_struct x y with left e => left _ | right n => right _ end
  | YStr x, YStr y => match list_eq_dec Z.eq_dec x y with left e => left _ | right n => right _ end
  | YSeq l, YSeq m => match list_eq_dec yaml_eq_dec l m with left e => left _ | right n => right _ end
  | YMap l, YMap m =>
      match list_eq_dec (fun p q : yaml * yaml =>
        match p, q with (k1, v1), (k2, v2) =>
          match yaml_eq_dec k1 k2, yaml_eq_dec v1 v2 with
          | left e1, left e2 => left _ | _, _ => right _ end end) l m with
      | left e => left _ | right n => right _ end
  | _, _ => right _ end); congruence.
Defined.

(** [v == "lit"] for a loaded value [v]: only a string can equal a string. *)
Definition py_eq_str (v : yaml) (lit : string) : bool :=
  match v with YStr s => ustr_eqb s (u lit) | _ => false end.

(** ** Classifier *)

Definition security_kws : list string :=
  ["hack"; "exploit"; "drain"; "scam"; "phishing"; "ransom"; "breach"].
Definition regulation_kws : list string :=
  ["sec"; "regulat"; "bill"; "law"; "court"; "lawsuit"; "ban"; "fine"; "probe"].
Definition biz_kws : list string :=
  ["etf"; "raises"; "raise"; "series"; "funding"; "acquire"; "acquisition"; "merger"].
Definition markets_kws : list string :=
  ["btc"; "bitcoin"; "eth"; "ether"; "price"; "market"; "liquidat"; "dump"; "pump"].

(** [classify] *)
Definition classify (title : ustr) : string :=
  let t := lower title in
  if any_in security_kws t then "Security"
  else if any_in regulation_kws t then "Regulation"
  else if any_in biz_kws t then "Biz/Capital"
  else if any_in markets_kws t then "Markets"
  else "General".

(** ** Scorer *)

Local Open Scope Q_scope.

(** [round(x, 1)]: round half to even to one decimal. *)
Definition round1 (x : Q) : Q :=
  let y := x * 10 in
  let f := Qfloor y in
  let d := y - inject_Z f in
  let k := if Qlt_le_dec d (1 # 2) then f
           else if Qlt_le_dec (1 # 2) d then (f + 1)%Z
           else if Z.even f then f else (f + 1)%Z in
  Qmake k 10.

(** [min(a, b)]: the first argument unless the second is smaller. *)
Definition py_min (a b : Q) : Q := if Qlt_le_dec b a then b else a.

Definition score_keywords : list (string * Q) :=
  [("exploit", 26 # 10); ("hack", 26 # 10); ("drain", 24 # 10);
   ("sec", 21 # 10); ("lawsuit", 20 # 10); ("court", 18 # 10);
   ("etf", 20 # 10); ("liquidat", 20 # 10);
   ("stablecoin", 16 # 10); ("btc", 6 # 10); ("eth", 4 # 10)].

(** The loop [for k, w in keywords: if k in t: base += w]. *)
Fixpoint add_keywords (t : ustr) (kws : list (string * Q)) (base : Q) : Q :=
  match kws with
  | [] => base
  | (k, w) :: r => add_keywords t r (if contains (u k) t then base + w else base)
  end.

Definition base_score (title : ustr) (kind : yaml) : Q :=
  let t := lower title in
  let base := if py_eq_str kind "news" then 46 # 10 else 42 # 10 in
  add_keywords t score_keywords base.

(** [score_item] *)
Definition score_item (title : ustr) (kind : yaml) : Q :=
  py_min 10 (round1 (base_score title kind)).

(** The score stored in an [Item] by [fetch_items]:
    [round(min(10.0, score_item(title, src.kind) * src.weight), 1)]. *)
Definition item_score (title : ustr) (kind : yaml) (weight : Q) : Q :=
  round1 (py_min 10 (score_item title kind * weight)).
Close Scope Q_scope.

Close Scope Q_scope.

(** ** Python exceptions *)

Inductive exn := KeyError | TypeError | AttributeError | ValueError | OverflowError.

(** A Python computation that returns a value or raises. *)
Inductive result (A : Type) := Ok (a : A) | Raise (e : exn).
Arguments Ok {A} a.
Arguments Raise {A} e.

Definition bind {A B} (m : result A) (f : A -> result B) : result B :=
  match m with Ok a => f a | Raise e => Raise e end.

Notation "x <- m ;; k" := (bind m (fun x => k)) (at level 61, m at next level, right associativity).

Fixpoint map_result {A B} (f : A -> result B) (l : list A) : result (list B) :=
  match l with
  | [] => Ok []
  | a :: r => b <- f a ;; bs <- map_result f r ;; Ok (b :: bs)
  end.

(** ** Source registry *)

Record SourceCfg := {
  cfg_id : yaml; cfg_name : yaml; cfg_url : yaml; cfg_lang : yaml; cfg_kind : yaml;
  cfg_weight : Q }.

(** Python truthiness of a loaded value. *)
Definition truthy (v : yaml) : bool :=
  match v with
  | YNull => false
  | YBool b => b
  | YNum q => negb (Qeq_bool q 0)
  | YStr s => negb (ustr_eqb s [])
  | YSeq l => negb (Nat.eqb (List.length l) 0)
  | YMap kv => negb (Nat.eqb (List.length kv) 0)
  end.

Definition lookup_key (k : string) (kv : list (yaml * yaml)) : option yaml :=
  match find (fun p => py_eq_str (fst p) k) kv with Some (_, v) => Some v | None => None end.

(** [d.get(k, default)]: only a dict has [.get]. *)
Definition py_get (d : yaml) (k : string) (default : yaml) : result yaml :=
  match d with
  | YMap kv => match lookup_key k kv with Some v => Ok v | None => Ok default end
  | _ => Raise AttributeError
  end.

(** [d[k]]: a missing key raises [KeyError]; subscripting a non-dict with a
    string raises [TypeError]. *)
Definition py_getitem (d : yaml) (k : string) : result yaml :=
  match d with
  | YMap kv => match lookup_key k kv with Some v => Ok v | None => Raise KeyError end
  | _ => Raise TypeError
  end.

(** [for s in v]: a list yields its elements, a dict its keys, a string its
    characters; other values are not iterable. *)
Definition py_iter (v : yaml) : result (list yaml) :=
  match v with
  | YSeq l => Ok l
  | YMap kv => Ok (map fst kv)
  | YStr s => Ok (map (fun c => YStr [c]) s)
  | _ => Raise TypeError
  end.

(** Loaded integers of magnitude at least [2^1024 - 2^970] round past the
    largest double; loaded floats are finite doubles, all below it. *)
Definition float_overflow_bound : Q := inject_Z (2 ^ 1024 - 2 ^ 970).

(** [float(v)]; [float_of_str] is Python's parsing of a numeric string.
    [float] of a too large integer raises [OverflowError]. *)
Definition py_float (float_of_str : ustr -> option Q) (v : yaml) : result Q :=
  match v with
  | YNum q =>
      if Qle_bool float_overflow_bound q || Qle_bool q (- float_overflow_bound)
      then Raise OverflowError else Ok q
  | YBool b => Ok (if b then 1%Q else 0%Q)
  | YStr s => match float_of_str s with Some q => Ok q | None => Raise ValueError end
  | _ => Raise TypeError
  end.

Definition load_source (float_of_str : ustr -> option Q) (s : yaml) : result SourceCfg :=
  i <- py_getitem s "id" ;;
  n <- py_getitem s "name" ;;
  l <- py_getitem s "url" ;;
  g <- py_getitem s "lang" ;;
  k <- py_getitem s "kind" ;;
  wv <- py_get s "weight" (YNum 1) ;;
  w <- py_float float_of_str wv ;;
  Ok {| cfg_id := i; cfg_name := n; cfg_url := l; cfg_lang := g; cfg_kind := k; cfg_weight := w |}.

(** [load_sources], from the document [yaml.safe_load] returned. *)
Definition load_sources (float_of_str : ustr -> option Q) (doc : yaml) : result (list SourceCfg) :=
  let cfg := if truthy doc then doc else YMap [] in
  srcs <- py_get cfg "sources" (YSeq []) ;;
  ss <- py_iter srcs ;;
  map_result (load_source float_of_str) ss.

(** ** Date and time *)

(** A [datetime]: wall time in seconds since 0001-01-01T00:00:00 and the UTC
    offset in seconds, [None] for a naive value. *)
Record datetime := { dt_wall : Z; dt_off : option Z }.

(** [datetime.max] is 9999-12-31T23:59:59.999999: 3652059 days after
    0001-01-01. *)
Definition MAXSEC : Z := 3652059 * 86400.

Definition in_range (w : Z) : bool := (0 <=? w) && (w <? MAXSEC).

(** [dt - timedelta(seconds=s)] and [dt + timedelta(seconds=s)] raise
    [OverflowError] outside the valid range. *)
Definition add_seconds (w s : Z) : result Z :=
  if in_range (w + s) then Ok (w + s) else Raise OverflowError.

(** [dt.astimezone(tz)] for an aware [dt]: [(dt - dt.utcoffset())], then
    pytz's [tz.fromutc], which adds the zone's offset for that UTC time.
    Returns the UTC wall time and the local wall time. *)
Definition astimezone (tz : Z -> Z) (w off : Z) : result (Z * Z) :=
  utc <- add_seconds w (- off) ;;
  loc <- add_seconds utc (tz utc) ;;
  Ok (utc, loc).

(** The date of a day number (days since 0001-01-01) as (year, month, day). *)
Definition civil_from_days (days : Z) : Z * Z * Z :=
  let z := days + 306 in
  let era := z / 146097 in
  let doe := z - era * 146097 in
  let yoe := (doe - doe / 1460 + doe / 36524 - doe / 146096) / 365 in
  let doy := doe - (365 * yoe + yoe / 4 - yoe / 100) in
  let mp := (5 * doy + 2) / 153 in
  let d := doy - (153 * mp + 2) / 5 + 1 in
  let m := if mp <? 10 then mp + 3 else mp - 9 in
  let y := yoe + era * 400 + (if m <=? 2 then 1 else 0) in
  (y, m, d).

Definition digit (n : Z) : Z := 48 + n.

Fixpoint pad (width : nat) (n : Z) : ustr :=
  match width with
  | O => []
  | S w => pad w (n / 10) ++ [digit (n mod 10)]
  end.

(** [dt.isoformat()] of an aware value with whole seconds. *)
Definition isoformat (loc off : Z) : ustr :=
  let '(y, m, d) := civil_from_days (loc / 86400) in
  let t := loc mod 86400 in
  let a := Z.abs off in
  pad 4 y ++ u "-" ++ pad 2 m ++ u "-" ++ pad 2 d ++ u "T"
  ++ pad 2 (t / 3600) ++ u ":" ++ pad 2 ((t / 60) mod 60) ++ u ":" ++ pad 2 (t mod 60)
  ++ (if off <? 0 then u "-" else u "+") ++ pad 2 (a / 3600) ++ u ":" ++ pad 2 ((a / 60) mod 60)
  ++ (if a mod 60 =? 0 then [] else u ":" ++ pad 2 (a mod 60)).

(** ** Feed entries *)

(** A feedparser entry: each attribute is absent or a string. *)
Record RawEntry := {
  e_published : option ustr; e_updated : option ustr; e_pubDate : option ustr;
  e_title : option ustr; e_link : option ustr }.

(** One step of [safe_parse_dt]: [if getattr(entry, key, None)] then try
    [dtparser.parse]; [parse] returns [None] where it raises. *)
Definition try_field (parse : ustr -> option datetime) (f : option ustr)
    (next : option datetime) : option datetime :=
  match f with
  | Some s => if ustr_eqb s [] then next
              else match parse s with Some d => Some d | None => next end
  | None => next
  end.

(** [safe_parse_dt] *)
Definition safe_parse_dt (parse : ustr -> option datetime) (e : RawEntry) : option datetime :=
  try_field parse (e_published e)
    (try_field parse (e_updated e)
      (try_field parse (e_pubDate e) None)).

(** [(getattr(e, k, "") or "").strip()] *)
Definition attr_str (f : option ustr) : ustr :=
  match f with Some s => strip s | None => [] end.

(** ** Items *)

Record Item := {
  source : yaml; source_id : yaml; title : ustr; link : ustr; published_sgt : ustr;
  cls : string; score : Q; kind : yaml; lang : yaml }.

(** The body of the entry loop of [fetch_items]: [Ok None] is [continue]. *)
Definition entry_item (parse : ustr -> option datetime) (tz : Z -> Z)
    (win_start win_end : Z) (src : SourceCfg) (e : RawEntry) : result (option Item) :=
  match safe_parse_dt parse e with
  | None => Ok None
  | Some dt =>
      let off := match dt_off dt with Some o => o | None => 0 end in
      ul <- astimezone tz (dt_wall dt) off ;;
      let '(utc, loc) := ul in
      if negb ((win_start <=? utc) && (utc <=? win_end)) then Ok None
      else
        let t := attr_str (e_title e) in
        let l := attr_str (e_link e) in
        if ustr_eqb t [] || ustr_eqb l [] then Ok None
        else Ok (Some {|
          source := cfg_name src; source_id := cfg_id src; title := t; link := l;
          published_sgt := isoformat loc (tz utc);
          cls := classify t;
          score := item_score t (cfg_kind src) (cfg_weight src);
          kind := cfg_kind src; lang := cfg_lang src |})
  end.

Fixpoint entries_items (parse : ustr -> option datetime) (tz : Z -> Z)
    (win_start win_end : Z) (src : SourceCfg) (es : list RawEntry) : result (list Item) :=
  match es with
  | [] => Ok []
  | e :: r =>
      o <- entry_item parse tz win_start win_end src e ;;
      its <- entries_items parse tz win_start win_end src r ;;
      Ok (match o with Some it => it :: its | None => its end)
  end.

Section Fetch.

(** [feedparser.parse(url).entries]: the entries the feed at [url] yields. *)
Variable feed : yaml -> list RawEntry.
Variable parse : ustr -> option datetime.

(** [fetch_items]; the first component lists the URLs handed to
    [feedparser.parse], in order. *)
Fixpoint fetch_items (sources : list SourceCfg) (tz : Z -> Z) (win_start win_end : Z)
    : list yaml * result (list Item) :=
  match sources with
  | [] => ([], Ok [])
  | src :: r =>
      match entries_items parse tz win_start win_end src (firstn 80 (feed (cfg_url src))) with
      | Raise e => ([cfg_url src], Raise e)
      | Ok its =>
          let '(log, res) := fetch_items r tz win_start win_end in
          (cfg_url src :: log, match res with Ok rest => Ok (its ++ rest) | Raise e => Raise e end)
      end
  end.

End Fetch.

(** ** Ranking, deduplication and sections *)

Definition Qltb (p q : Q) : bool := negb (Qle_bool q p).

(** The sort key [(-x.score, x.published_sgt)] compared with [<]. *)
Definition key_lt (a b : Item) : bool :=
  Qltb (score b) (score a)
  || (Qeq_bool (score a) (score b) && ustr_ltb (published_sgt a) (published_sgt b)).

(** Insertion into a ranked list, after every element whose key is smaller
    and before the first one that is not: with [isort] this is the stable
    sort Python's [sorted] performs. *)
Fixpoint insert (x : Item) (l : list Item) : list Item :=
  match l with
  | [] => [x]
  | y :: r => if key_lt y x then y :: insert x r else x :: y :: r
  end.

(** [sorted(items, key=lambda x: (-x.score, x.published_sgt))] *)
Fixpoint isort (l : list Item) : list Item :=
  match l with
  | [] => []
  | x :: r => insert x (isort r)
  end.

(** The loop of [dedup] over the ranked items; [seen] is the set of keys. *)
Fixpoint dedup_loop (seen : list ustr) (l : list Item) : list Item :=
  match l with
  | [] => []
  | it :: r =>
      let key := normalize_title (title it) in
      if existsb (ustr_eqb key) seen then dedup_loop seen r
      else it :: dedup_loop (key :: seen) r
  end.

(** [dedup] *)
Definition dedup (items : list Item) : list Item := dedup_loop [] (isort items).

(** [==] on [Item]: the dataclass compares its fields in order. *)
Definition item_eqb (a b : Item) : bool :=
  (if yaml_eq_dec (source a) (source b) then true else false)
  && (if yaml_eq_dec (source_id a) (source_id b) then true else false)
  && ustr_eqb (title a) (title b) && ustr_eqb (link a) (link b)
  && ustr_eqb (published_sgt a) (published_sgt b)
  && String.eqb (cls a) (cls b) && Qeq_bool (score a) (score b)
  && (if yaml_eq_dec (kind a) (kind b) then true else false)
  && (if yaml_eq_dec (lang a) (lang b) then true else false).

(** [x in l] *)
Definition py_in (x : Item) (l : list Item) : bool := existsb (item_eqb x) l.

(** [x.score >= 8.8] *)
Definition is_breaking (x : Item) : bool := Qle_bool (88 # 10) (score x).

(** [pick_sections]: returns [(headlines, breaking, quick)]. *)
Definition pick_sections (items : list Item) : list Item * list Item * list Item :=
  let items_sorted := isort items in
  let breaking := firstn 2 (filter is_breaking items_sorted) in
  let rest := filter (fun x => negb (py_in x breaking)) items_sorted in
  let headlines := firstn 5 rest in
  let quick := firstn 12 (skipn 5 rest) in
  (headlines, breaking, quick).

(** ** The run *)

(** What [main] computes before rendering: the URLs fetched, and either the
    exception that ends the run or the English and Chinese sections. [now]
    is the current UTC time; [datetime.now(tz)] holds the local wall time
    [now + tz now], and [now - timedelta(hours=window_hours)] subtracts from
    that wall time, raising [OverflowError] outside the [datetime] range
    before the configuration is read ([timedelta(hours=h)] itself overflows
    only for |h| >= 24 * 10^9, where the subtraction is out of range too). *)
Definition main_run (feed : yaml -> list RawEntry) (parse : ustr -> option datetime)
    (float_of_str : ustr -> option Q) (config : yaml) (tz : Z -> Z) (now window_hours : Z)
    : list yaml * result ((list Item * list Item * list Item) * (list Item * list Item * list Item)) :=
  match add_seconds (now + tz now) (- (window_hours * 3600)) with
  | Raise e => ([], Raise e)
  | Ok _ =>
    let win_end := now in
    let win_start := now - window_hours * 3600 in
    match load_sources float_of_str config with
    | Raise e => ([], Raise e)
    | Ok sources =>
        let en_sources := filter (fun s => py_eq_str (cfg_lang s) "en") sources in
        let zh_sources := filter (fun s => py_eq_str (cfg_lang s) "zh") sources in
        let '(log_en, en) :=
          match en_sources with
          | [] => ([], Ok [])
          | _ => fetch_items feed parse en_sources tz win_start win_end
          end in
        match en with
        | Raise e => (log_en, Raise e)
        | Ok en_items =>
            let '(log_zh, zh) :=
              match zh_sources with
              | [] => ([], Ok [])
              | _ => fetch_items feed parse zh_sources tz win_start win_end
              end in
            (log_en ++ log_zh,
             match zh with
             | Raise e => Raise e
             | Ok zh_items => Ok (pick_sections (dedup en_items), pick_sections (dedup zh_items))
             end)
        end
    end
  end.

(** ** Rendering *)

(** A literal of the source text, given in UTF-8 with the caret standing for
    the double quote character (no literal of the module contains a caret),
    decoded to code points. *)
Definition cont_byte (a : ascii) : Z := Z.of_nat (nat_of_ascii a) - 128.

Fixpoint utf8 (s : string) : ustr :=
  match s with
  | EmptyString => []
  | String a r =>
      let b := Z.of_nat (nat_of_ascii a) in
      if b <? 128 then b :: utf8 r
      else if b <? 224 then
        match r with
        | String a1 r1 => (b - 192) * 64 + cont_byte a1 :: utf8 r1
        | EmptyString => []
        end
      else if b <? 240 then
        match r with
        | String a1 (String a2 r2) =>
            ((b - 224) * 64 + cont_byte a1) * 64 + cont_byte a2 :: utf8 r2
        | _ => []
        end
      else
        match r with
        | String a1 (String a2 (String a3 r3)) =>
            (((b - 240) * 64 + cont_byte a1) * 64 + cont_byte a2) * 64 + cont_byte a3 :: utf8 r3
        | _ => []
        end
  end.

Definition lit (s : string) : ustr := map (fun c => if c =? 94 then 34 else c) (utf8 s).

(** [s.replace(old, new)] for a non-empty [old]: occurrences are found left to
    right and each is replaced; [skip] counts the characters of the occurrence
    just replaced that are still to be passed over. The replacement text is
    not scanned again. *)
Fixpoint replace_from (old new : ustr) (skip : nat) (s : ustr) : ustr :=
  match s with
  | [] => []
  | c :: r =>
      match skip with
      | S k => replace_from old new k r
      | O => if is_prefix old s then new ++ replace_from old new (pred (List.length old)) r
             else c :: replace_from old new O r
      end
  end.

(** [s.replace(old, new)]; an empty [old] inserts [new] before every character
    and at the end. *)
Definition py_replace (old new s : ustr) : ustr :=
  match old with
  | [] => new ++ flat_map (fun c => c :: new) s
  | _ => replace_from old new O s
  end.

(** The escaping of titles and links in [render_section] and
    [render_all_rows]:
    [.replace("&", "&amp;").replace("<", "&lt;").replace(">", "&gt;")]. *)
Definition html_escape (s : ustr) : ustr :=
  py_replace (u ">") (u "&gt;") (py_replace (u "<") (u "&lt;") (py_replace (u "&") (u "&amp;") s)).

(** [str(n)] of an [int]. *)
Fixpoint uint_digits (d : Decimal.uint) : ustr :=
  match d with
  | Decimal.Nil => []
  | Decimal.D0 r => 48 :: uint_digits r
  | Decimal.D1 r => 49 :: uint_digits r
  | Decimal.D2 r => 50 :: uint_digits r
  | Decimal.D3 r => 51 :: uint_digits r
  | Decimal.D4 r => 52 :: uint_digits r
  | Decimal.D5 r => 53 :: uint_digits r
  | Decimal.D6 r => 54 :: uint_digits r
  | Decimal.D7 r => 55 :: uint_digits r
  | Decimal.D8 r => 56 :: uint_digits r
  | Decimal.D9 r => 57 :: uint_digits r
  end.

Definition str_int (n : Z) : ustr :=
  match Z.to_int n with
  | Decimal.Pos d => uint_digits d
  | Decimal.Neg d => 45 :: uint_digits d
  end.

(** [sep.join(l)] *)
Fixpoint py_join (sep : ustr) (l : list ustr) : ustr :=
  match l with
  | [] => []
  | [x] => x
  | x :: r => x ++ sep ++ py_join sep r
  end.

(** [str.upper()], on the ASCII letters. *)
Definition upper_char (c : Z) : Z :=
  if (97 <=? c) && (c <=? 122) then c - 32 else c.

(** [(v or "").upper()] for a loaded value: a falsy value gives the empty
    string, a string is upper-cased, and any other value has no [upper]. *)
Definition lang_upper (v : yaml) : result ustr :=
  if truthy v then
    match v with YStr s => Ok (map upper_char s) | _ => Raise AttributeError end
  else Ok [].

(** The rows of a non-empty listing: [enumerate(items, 1)]. *)
Fixpoint enum_rows {A} (row : Z -> Item -> A) (i : Z) (items : list Item) : list A :=
  match items with
  | [] => []
  | it :: r => row i it :: enum_rows row (i + 1) r
  end.

(** The row standing for an empty list. *)
Definition empty_row : ustr := lit "<div class=^row dim empty^>-- empty --</div>".

(** [url_join]: [base.rstrip("/")] and [path.lstrip("/")] joined by one slash. *)
Fixpoint lstrip_slash (s : ustr) : ustr :=
  match s with
  | c :: r => if c =? 47 then lstrip_slash r else s
  | [] => []
  end.

Definition rstrip_slash (s : ustr) : ustr := rev (lstrip_slash (rev s)).

Definition url_join (base path : ustr) : ustr :=
  let base := rstrip_slash base in
  let path := lstrip_slash path in
  match base with
  | [] => 47 :: path
  | _ => base ++ 47 :: path
  end.

(** [repo.split("/", 1)[1]]: what follows the first slash. *)
Fixpoint after_first_slash (s : ustr) : ustr :=
  match s with
  | [] => []
  | c :: r => if c =? 47 then r else after_first_slash r
  end.

(** [detect_site_base]; [env] is [os.getenv("GITHUB_REPOSITORY")]. *)
Definition detect_site_base (env : option ustr) : ustr :=
  let repo := strip (match env with Some s => s | None => [] end) in
  if mem_Z 47 repo then 47 :: after_first_slash repo else [].

(** [s] begins with a slash. *)
Definition starts_slash (s : ustr) : bool :=
  match s with c :: _ => c =? 47 | [] => false end.

(** [os.path.join(a, b)] on POSIX: an absolute [b] replaces the path so far. *)
Definition path_join2 (a b : ustr) : ustr :=
  if starts_slash b then b
  else if ustr_eqb a [] || starts_slash (rev a) then a ++ b
  else a ++ 47 :: b.

Definition path_join (a : ustr) (bs : list ustr) : ustr := fold_left path_join2 bs a.

(** The page URL of [render_pager]'s inner [page_url]. *)
Definition page_url (base_url : ustr) (p : Z) : ustr :=
  if p =? 1 then base_url ++ u "/" else base_url ++ u "/page/" ++ str_int p ++ u "/".

(** [render_pager] *)
Definition render_pager (current total : Z) (base_url : ustr) : ustr :=
  let prev_html :=
    if 1 <? current then lit "<a class=^pill^ href=^" ++ page_url base_url (current - 1) ++ lit "^>Prev</a>"
    else lit "<span class=^pill dim^>Prev</span>" in
  let next_html :=
    if current <? total then lit "<a class=^pill^ href=^" ++ page_url base_url (current + 1) ++ lit "^>Next</a>"
    else lit "<span class=^pill dim^>Next</span>" in
  lit "<div class=^row^ style=^border-top:1px solid var(--line);^>"
  ++ prev_html
  ++ lit "<span class=^pill dim^>Page " ++ str_int current ++ u "/" ++ str_int total ++ lit "</span>"
  ++ next_html
  ++ lit "</div>".

(** The page template of [html_page]. *)
Definition tpl : ustr := lit "<!doctype html>
<html>
<head>
<meta charset=^utf-8^/>
<meta name=^viewport^ content=^width=device-width, initial-scale=1^/>
<title>VoiceOfCrypto — Matrix Brief</title>

<style>
:root {
  --bg:#000;
  --fg:#00ff66;
  --dim:#00aa44;
  --line:rgba(0,255,102,.22);
  --lineStrong:rgba(0,255,102,.55);
  --hi:rgba(0,255,102,.10);

  --font-en:^American Typewriter^,^Courier New^,Courier,ui-monospace,SFMono-Regular,Menlo,Monaco,Consolas,monospace;
  --font-zh:^Songti SC^,^SimSun^,^Noto Serif CJK SC^,^Source Han Serif SC^,serif;
}

html,body{height:100%;}
body{
  margin:0;
  background:var(--bg);
  color:var(--fg);
  font-family:var(--font-en);
  letter-spacing:.2px;
}

#matrix-rain{
  position: fixed;
  inset: 0;
  z-index: -1;
  pointer-events: none;
}

.wrap{max-width:980px;margin:0 auto;padding:18px 14px 30px;}
.box{border:1px solid var(--line);padding:12px;margin:10px 0;}
.title{font-weight:800;}
.dim{color:var(--dim);}
a{color:var(--fg);text-decoration:underline;}
.row{padding:10px 0;border-top:1px dashed var(--line);}
.row:first-child{border-top:none;}
.pill{display:inline-block;padding:1px 8px;border:1px solid var(--line);margin:0 6px;}
.mono{font-weight:800;}
.t{font-weight:600;}

.logo-ascii{float:left;margin-right:12px;color:var(--dim);font-weight:800;line-height:1.25;}
.logo-ascii span{display:block;}

.breaking .row{
  border-top:1px solid var(--lineStrong);
  background:var(--hi);
  animation:pulse 1.2s ease-in-out infinite;
}
.breaking .row.empty{
  animation:none;
  background:transparent;
  border-top:1px dashed var(--line);
}
@keyframes pulse{
  0%{background:rgba(0,255,102,.06)}
  50%{background:rgba(0,255,102,.20)}
  100%{background:rgba(0,255,102,.06)}
}

.zh{font-family:var(--font-zh);}
.zh .title,.zh .mono,.zh .pill{font-family:var(--font-en);}
</style>
</head>

<body>
<canvas id=^matrix-rain^></canvas>

<div class=^wrap^>
  <div class=^box^>
    <div class=^logo-ascii^>
      <span>[ V ]</span>
      <span>[ O ]</span>
      <span>[ C ]</span>
    </div>
    <div class=^title^>CRYPTO::GLOBAL_NEWS_ALARM | VOICEofCRYPTO | MATRIX BRIEF 🐶</div>
    <div class=^dim^>T+   : %%NOW%% (Asia/Singapore)</div>
    <div class=^dim^>WIN  : %%WIN_START%% → %%WIN_END%% (SGT)</div>
  </div>

  <div class=^box^>
    <div class=^title^>[EN BRIEF]</div>
    <div class=^split^></div>
    %%EN_HTML%%
  </div>

  <div class=^box zh^>
    <div class=^title^>[中文简报]</div>
    <div class=^split^></div>
    %%ZH_HTML%%
  </div>
</div>

<script>
(function () {
  const canvas = document.getElementById('matrix-rain');
  const ctx = canvas.getContext('2d');

  const chars = '0123456789+-×÷=∑∫√∞πλμσΔ';
  const fontSize = 12;
  const speed = 1;
  let cols = 0;
  let drops = [];

  function resize() {
    canvas.width = window.innerWidth;
    canvas.height = window.innerHeight;
    cols = Math.floor(canvas.width / fontSize);
    drops = Array(cols).fill(0);
  }

  resize();
  window.addEventListener('resize', resize);

  function draw() {
    ctx.fillStyle = 'rgba(0,0,0,0.08)';
    ctx.fillRect(0, 0, canvas.width, canvas.height);

    ctx.fillStyle = 'rgba(0,255,102,0.08)';
    ctx.font = fontSize + 'px monospace';

    for (let i = 0; i < drops.length; i++) {
      const text = chars[Math.floor(Math.random() * chars.length)];
      ctx.fillText(text, i * fontSize, drops[i] * fontSize);

      if (drops[i] * fontSize > canvas.height && Math.random() > 0.975) {
        drops[i] = 0;
      }
      drops[i] += speed;
    }
  }

  setInterval(draw, 40);
})();
</script>
</body>
</html>
".

(** [html_page]: the placeholders are replaced one after the other, each in
    the result of the previous replacement. *)
Definition html_page (now_sgt win_start win_end en_html zh_html : ustr) : ustr :=
  py_replace (u "%%ZH_HTML%%") zh_html
    (py_replace (u "%%EN_HTML%%") en_html
      (py_replace (u "%%WIN_END%%") win_end
        (py_replace (u "%%WIN_START%%") win_start
          (py_replace (u "%%NOW%%") now_sgt tpl)))).

(** The part of [s] before the first occurrence of [sep], and the part after
    it. *)
Fixpoint split_first (sep s : ustr) : ustr * ustr :=
  if is_prefix sep s then ([], skipn (List.length sep) s)
  else match s with
       | [] => ([], [])
       | c :: r => let '(a, b) := split_first sep r in (c :: a, b)
       end.

(** The template text around its placeholders. *)
Definition tpl_0 : ustr := fst (split_first (u "%%NOW%%") tpl).
Definition tpl_r1 : ustr := snd (split_first (u "%%NOW%%") tpl).
Definition tpl_1 : ustr := fst (split_first (u "%%WIN_START%%") tpl_r1).
Definition tpl_r2 : ustr := snd (split_first (u "%%WIN_START%%") tpl_r1).
Definition tpl_2 : ustr := fst (split_first (u "%%WIN_END%%") tpl_r2).
Definition tpl_r3 : ustr := snd (split_first (u "%%WIN_END%%") tpl_r2).
Definition tpl_3 : ustr := fst (split_first (u "%%EN_HTML%%") tpl_r3).
Definition tpl_r4 : ustr := snd (split_first (u "%%EN_HTML%%") tpl_r3).
Definition tpl_4 : ustr := fst (split_first (u "%%ZH_HTML%%") tpl_r4).
Definition tpl_5 : ustr := snd (split_first (u "%%ZH_HTML%%") tpl_r4).

Section Render.

(** [f"{x}"] of a float: Python's shortest [repr]. *)
Variable float_repr : Q -> ustr.
(** [f"{v}"] of a loaded value that is not a string: [str(v)]. *)
Variable str_other : yaml -> ustr.
(** [datetime.fromisoformat]; [None] where it raises [ValueError]. *)
Variable fromisoformat : ustr -> option datetime.
(** The UTC offset of the system's local time zone at a local wall time: the
    offset [astimezone] assumes for a naive value. *)
Variable local_offset : Z -> Z.
(** [d.strftime(fmt)] of a datetime with wall time [d]. *)
Variable strftime : string -> Z -> ustr.

(** [f"{v}"] of a loaded value. *)
Definition py_format (v : yaml) : ustr :=
  match v with YStr s => s | _ => str_other v end.

(** One row of [render_section]. *)
Definition section_row (prefix : ustr) (i : Z) (it : Item) : ustr :=
  let t := html_escape (title it) in
  let l := html_escape (link it) in
  lit "<div class=^row^><div>"
  ++ lit "<span class=^mono^>[" ++ prefix ++ str_int i ++ lit "]</span>"
  ++ lit "<span class=^pill^>[" ++ float_repr (score it) ++ lit "/10]</span>"
  ++ lit "<span class=^pill dim^>[" ++ u (cls it) ++ lit "]</span> "
  ++ lit "<a class=^t^ href=^" ++ l ++ lit "^ target=^_blank^ rel=^noreferrer^>" ++ t ++ lit "</a>"
  ++ lit "</div><div class=^dim^>↳ src: " ++ py_format (source it) ++ lit "</div></div>".

(** [render_section] *)
Definition render_section (items : list Item) (prefix : ustr) : ustr :=
  match items with
  | [] => empty_row
  | _ => py_join [10] (enum_rows (section_row prefix) 1 items)
  end.

(** The [try] block of [render_all_rows]: the local time of day of a stored
    timestamp, or [??:??] where parsing or conversion raises. *)
Definition hhmm_of (tz : Z -> Z) (s : ustr) : ustr :=
  match fromisoformat s with
  | None => u "??:??"
  | Some dt =>
      let off := match dt_off dt with Some o => o | None => local_offset (dt_wall dt) end in
      match astimezone tz (dt_wall dt) off with
      | Ok (_, loc) => pad 2 ((loc mod 86400) / 3600) ++ u ":" ++ pad 2 ((loc mod 86400 / 60) mod 60)
      | Raise _ => u "??:??"
      end
  end.

(** One row of [render_all_rows]; the language tag can raise. *)
Definition all_row (tz : Z -> Z) (i : Z) (it : Item) : result ustr :=
  let t := html_escape (title it) in
  let l := html_escape (link it) in
  let hhmm := hhmm_of tz (published_sgt it) in
  lg <- lang_upper (lang it) ;;
  Ok (lit "<div class=^row^><div>"
      ++ lit "<span class=^mono^>[A" ++ str_int i ++ lit "]</span>"
      ++ lit "<span class=^pill^>[" ++ float_repr (score it) ++ lit "/10]</span>"
      ++ lit "<span class=^pill dim^>[" ++ u (cls it) ++ lit "]</span>"
      ++ lit "<span class=^pill dim^>[" ++ lg ++ lit "]</span> "
      ++ lit "<span class=^dim^>" ++ hhmm ++ lit "</span> "
      ++ lit "<a class=^t^ href=^" ++ l ++ lit "^ target=^_blank^ rel=^noreferrer^>" ++ t ++ lit "</a>"
      ++ lit "</div><div class=^dim^>↳ src: " ++ py_format (source it) ++ lit "</div></div>").

(** [render_all_rows] *)
Definition render_all_rows (items : list Item) (tz : Z -> Z) : result ustr :=
  match items with
  | [] => Ok empty_row
  | _ => rows <- map_result (fun r => r) (enum_rows (all_row tz) 1 items) ;; Ok (py_join [10] rows)
  end.

End Render.

(** The order of the full listing:
    [(a.published_sgt, a.score) < (b.published_sgt, b.score)]. *)
Definition all_key_lt (a b : Item) : bool :=
  ustr_ltb (published_sgt a) (published_sgt b)
  || (ustr_eqb (published_sgt a) (published_sgt b) && Qltb (score a) (score b)).

(** Insertion before the first element whose key is not larger. *)
Fixpoint insert_desc (x : Item) (l : list Item) : list Item :=
  match l with
  | [] => [x]
  | y :: r => if all_key_lt x y then y :: insert_desc x r else x :: y :: r
  end.

(** [sorted(all_items, key=lambda x: (x.published_sgt, x.score), reverse=True)]:
    descending, and stable (equal keys keep their order). *)
Fixpoint sort_desc (l : list Item) : list Item :=
  match l with
  | [] => []
  | x :: r => insert_desc x (sort_desc r)
  end.

(** A slice index as Python normalises it for a list of length [n]. *)
Definition slice_index (n i : Z) : Z :=
  if i <? 0 then Z.max 0 (n + i) else Z.min i n.

(** [l[s:e]] *)
Definition py_slice {A} (l : list A) (s e : Z) : list A :=
  let n := Z.of_nat (List.length l) in
  let s' := slice_index n s in
  let e' := slice_index n e in
  firstn (Z.to_nat (e' - s')) (skipn (Z.to_nat s') l).

(** [math.ceil(n / d)] for [d <> 0]. *)
Definition ceil_div (n d : Z) : Z := - ((- n) / d).

(** [max(1, math.ceil(len(items_sorted) / per_page))] *)
Definition total_pages (n per_page : Z) : Z := Z.max 1 (ceil_div n per_page).

(** [range(1, total + 1)] *)
Definition page_numbers (total : Z) : list Z := map Z.of_nat (seq 1 (Z.to_nat total)).

(** [items_sorted[s:e]] for page [p]. *)
Definition page_chunk (items_sorted : list Item) (per_page p : Z) : list Item :=
  let s := (p - 1) * per_page in
  let e := s + per_page in
  py_slice items_sorted s e.

(** The directory page [p] is written to. *)
Definition page_dir (out_root : ustr) (p : Z) : ustr :=
  if p =? 1 then path_join out_root [u "all"]
  else path_join out_root [u "all"; u "page"; str_int p].

(** The exceptions [build_all_pages] can end with. *)
Inductive page_exn := ZeroDivisionError | PageRaise (e : exn).

Section Pages.

Variable float_repr : Q -> ustr.
Variable str_other : yaml -> ustr.
Variable fromisoformat : ustr -> option datetime.
Variable local_offset : Z -> Z.
Variable strftime : string -> Z -> ustr.

(** The loop of [build_all_pages]: the [(directory, page)] pairs written, in
    order, and the exception that stopped the loop if any. *)
Fixpoint write_pages (items_sorted : list Item) (tz : Z -> Z) (now win_start win_end : Z)
    (out_root all_base : ustr) (per_page total : Z) (ps : list Z)
    : list (ustr * ustr) * option exn :=
  match ps with
  | [] => ([], None)
  | p :: r =>
      let chunk_items := page_chunk items_sorted per_page p in
      match render_all_rows float_repr str_other fromisoformat local_offset chunk_items tz with
      | Raise e => ([], Some e)
      | Ok rows =>
          let all_html :=
            lit "<div class=^title dim^>> [ALL_ITEMS]</div>" ++ rows
            ++ render_pager p total all_base in
          let page := html_page (strftime "%Y-%m-%d %H:%M:%S" now)
                        (strftime "%H:%M" win_start) (strftime "%H:%M" win_end)
                        all_html (lit "<div class=^row dim^>-- all items list --</div>") in
          let '(w, o) := write_pages items_sorted tz now win_start win_end out_root all_base
                           per_page total r in
          ((page_dir out_root p, page) :: w, o)
      end
  end.

(** [build_all_pages]; [env] is [os.getenv("GITHUB_REPOSITORY")]. *)
Definition build_all_pages (all_items : list Item) (tz : Z -> Z) (now win_start win_end : Z)
    (env : option ustr) (out_root : ustr) (per_page : Z)
    : list (ustr * ustr) * option page_exn :=
  let items_sorted := sort_desc all_items in
  if per_page =? 0 then ([], Some ZeroDivisionError)
  else
    let total := total_pages (Z.of_nat (List.length items_sorted)) per_page in
    let site_base := detect_site_base env in
    let all_base := url_join site_base (u "all") in
    let '(w, o) := write_pages items_sorted tz now win_start win_end out_root all_base
                     per_page total (page_numbers total) in
    (w, option_map PageRaise o).

End Pages.

(** ** Reference definitions following the spec's words *)

(** The classifier as the spec states it: the first category of a fixed
    priority table whose keywords occur in the lower-cased title, else
    General. *)
Definition category_table : list (string * list string) :=
  [("Security", security_kws); ("Regulation", regulation_kws);
   ("Biz/Capital", biz_kws); ("Markets", markets_kws)].

Definition classify_by_priority (title : ustr) : string :=
  match find (fun p => any_in (snd p) (lower title)) category_table with
  | Some (c, _) => c
  | None => "General"
  end.

(** The five categories. *)
Definition categories : list string :=
  ["Security"; "Regulation"; "Biz/Capital"; "Markets"; "General"].

(** [a] ranks no later than [b] in the order of [sorted]: [not (key(b) < key(a))]. *)
Definition le_key (a b : Item) : Prop := key_lt b a = false.

(** The deduplication key of an item. *)
Definition key_of (it : Item) : ustr := normalize_title (title it).

(** A sample item of an English "news" source. *)
Definition sample_item (t ts : string) (sc : Q) : Item := {|
  source := YStr (u "Sample"); source_id := YStr (u "sample"); title := u t;
  link := u "https://example.com/a"; published_sgt := u ts; cls := classify (u t);
  score := sc; kind := YStr (u "news"); lang := YStr (u "en") |}.

(** No two items of [l1] and [l2] are equal ([==]). *)
Definition disjoint (l1 l2 : list Item) : Prop :=
  forall x y, In x l1 -> In y l2 -> item_eqb x y = false.

(** No item occurs twice in [l]. *)
Fixpoint nodup_items (l : list Item) : bool :=
  match l with
  | [] => true
  | x :: r => negb (py_in x r) && nodup_items r
  end.

(** The characters [normalize_title] deletes. *)
Definition removed (c : Z) : bool := mem_Z c quote_chars || mem_Z c bracket_chars.

(** Whitespace shape of a string: no leading or trailing whitespace and no
    two adjacent whitespace characters. *)
Definition first_ok (l : ustr) : bool :=
  match l with [] => true | c :: _ => negb (is_space c) end.

Definition last_ok (l : ustr) : bool := first_ok (rev l).

Fixpoint no_adj (l : ustr) : bool :=
  match l with
  | c1 :: ((c2 :: _) as r) => negb (is_space c1 && is_space c2) && no_adj r
  | _ => true
  end.

Definition ws_clean (l : ustr) : bool := first_ok l && last_ok l && no_adj l.

(** Asia/Singapore as pytz has it since 1982: UTC+08:00. *)
Definition sg_tz (utc : Z) : Z := 8 * 3600.

(** 2025-01-01T00:00:00Z, as seconds since 0001-01-01. *)
Definition sample_now : Z := 738885 * 86400.

(** A configuration with one English "news" source. *)
Definition sample_config : yaml :=
  YMap [(YStr (u "sources"),
         YSeq [YMap [(YStr (u "id"), YStr (u "feed1")); (YStr (u "name"), YStr (u "Feed One"));
                     (YStr (u "url"), YStr (u "https://feed.example/rss"));
                     (YStr (u "lang"), YStr (u "en")); (YStr (u "kind"), YStr (u "news"))]])].

(** A feed entry stamped 9999-12-31T23:00:00Z. *)
Definition late_entry : RawEntry := {|
  e_published := Some (u "9999-12-31T23:00:00Z"); e_updated := None; e_pubDate := None;
  e_title := Some (u "Late entry"); e_link := Some (u "https://feed.example/late") |}.

(** [dtparser.parse] on the stamps used here: 9999-12-31T23:00:00 with a UTC
    offset of zero. *)
Definition late_parse (s : ustr) : option datetime :=
  if ustr_eqb s (u "9999-12-31T23:00:00Z")
  then Some {| dt_wall := 3652058 * 86400 + 23 * 3600; dt_off := Some 0 |}
  else None.

(** Two items are not equal ([==] is false). *)
Definition item_ne (a b : Item) : Prop := item_eqb a b = false.

(** ** Auxiliary definitions of the rendering and pipeline proofs *)

(** The escaping of one character. *)
Definition esc (x : Z) : ustr :=
  if x =? 38 then u "&amp;" else if x =? 60 then u "&lt;" else if x =? 62 then u "&gt;" else [x].

(** [compat o s]: [o] and [s] agree on their common length. *)
Fixpoint compat (o s : ustr) : bool :=
  match o, s with
  | [], _ => true
  | _, [] => true
  | x :: o', y :: s' => (x =? y) && compat o' s'
  end.

(** Some suffix of [a] agrees with [old] on their common length: [old] may
    start inside [a]. *)
Fixpoint starts_inside (old a : ustr) : bool :=
  match a with
  | [] => false
  | x :: r => compat old a || starts_inside old r
  end.

(** What the fetch loop copies into an item it keeps from source [src]. *)
Definition fetched_from (src : SourceCfg) (it : Item) : Prop :=
  title it <> [] /\ link it <> [] /\ strip (title it) = title it /\ strip (link it) = link it
  /\ cls it = classify (title it)
  /\ score it = item_score (title it) (cfg_kind src) (cfg_weight src)
  /\ source it = cfg_name src /\ source_id it = cfg_id src
  /\ kind it = cfg_kind src /\ lang it = cfg_lang src.

(** [it] was fetched from a source of [srcs] whose [lang] is [lg]. *)
Definition from_lang (srcs : list SourceCfg) (lg : string) (it : Item) : Prop :=
  exists src, In src srcs /\ py_eq_str (cfg_lang src) lg = true /\ fetched_from src it.

(** UTC as a time zone. *)
Definition utc_tz (utc : Z) : Z := 0.

(** 9999-12-31T23:00:00, the wall time of [late_entry]. *)
Definition late_wall : Z := 3652058 * 86400 + 23 * 3600.

(** The source mapping of [sample_config]. *)
Definition sample_source_kv : list (yaml * yaml) :=
  [(YStr (u "id"), YStr (u "feed1")); (YStr (u "name"), YStr (u "Feed One"));
   (YStr (u "url"), YStr (u "https://feed.example/rss"));
   (YStr (u "lang"), YStr (u "en")); (YStr (u "kind"), YStr (u "news"))].

(** Facts about the case tables, checked by evaluation in the proofs. *)
Definition lower_fixed (y : Z) : bool :=
  match lower_full y with
  | [z] => (z =? y) && negb (y =? 931)
  | _ => false
  end.

Definition run_step (r : Z * Z * Z * Z) : Z := let '(_, _, st, _) := r in st.
Definition run_delta (r : Z * Z * Z * Z) : Z := let '(_, _, _, d) := r in d.

Definition run_points (r : Z * Z * Z * Z) : list Z :=
  let '(lo, hi, st, _) := r in
  map (fun k => lo + st * Z.of_nat k) (seq 0 (S (Z.to_nat ((hi - lo) / st)))).

Definition plain_out (y : Z) : bool := lower_fixed y && negb (is_space y) && negb (removed y).

Definition runs_ok : bool :=
  forallb (fun r => (0 <? run_step r)
                    && forallb (fun c => plain_out (c + run_delta r)) (run_points r))
    lower_runs.

Definition seqZ (lo : Z) (n : nat) : list Z := map (fun k => lo + Z.of_nat k) (seq 0 n).

(** The code points [str.strip] and [\s] treat as whitespace. *)
Definition space_points : list Z :=
  seqZ 9 5 ++ seqZ 28 5 ++ seqZ 133 1 ++ seqZ 160 1 ++ seqZ 5760 1 ++ seqZ 8192 11
  ++ seqZ 8232 2 ++ seqZ 8239 1 ++ seqZ 8287 1 ++ seqZ 12288 1.

Definition spaces_ok : bool :=
  forallb (fun c => lower_fixed c && negb (case_ignorable c) && negb (cased c)) space_points.

(** The two halves of [final_sigma]. *)
Definition before_cased (before : ustr) : bool :=
  match skip_case_ignorable before with Some c => cased c | None => false end.

Definition after_ok (after : ustr) : bool :=
  match skip_case_ignorable after with Some d => negb (cased d) | None => true end.

(** * Proofs *)

(** ** Strings *)

(** ** [str.lower] *)

Lemma runs_ok_true : runs_ok = true.
Proof. vm_compute. reflexivity. Qed.

Lemma spaces_ok_true : spaces_ok = true.
Proof. vm_compute. reflexivity. Qed.

Lemma in_run_points (r : Z * Z * Z * Z) (c : Z) :
  0 < run_step r -> in_run r c = true -> In c (run_points r).
Proof.
  destruct r as [[[lo hi] st] d]. unfold run_step, in_run, run_points. intros Hs H.
  apply andb_true_iff in H as [H H3]. apply andb_true_iff in H as [H1 H2].
  apply Z.leb_le in H1, H2. apply Z.eqb_eq in H3.
  assert (Q0 : 0 <= (c - lo) / st) by (apply Z.div_pos; lia).
  assert (Q1 : (c - lo) / st <= (hi - lo) / st) by (apply Z.div_le_mono; lia).
  apply in_map_iff. exists (Z.to_nat ((c - lo) / st)). split.
  - rewrite Z2Nat.id by exact Q0.
    pose proof (Z.div_mod (c - lo) st ltac:(lia)). lia.
  - apply in_seq. lia.
Qed.

Lemma run_out (r : Z * Z * Z * Z) (c : Z) :
  In r lower_runs -> in_run r c = true -> plain_out (c + run_delta r) = true.
Proof.
  intros Hr Hc. pose proof runs_ok_true as H. unfold runs_ok in H.
  rewrite forallb_forall in H. specialize (H r Hr). apply andb_true_iff in H as [Hs H].
  apply Z.ltb_lt in Hs. rewrite forallb_forall in H. apply H. apply in_run_points; assumption.
Qed.

Lemma in_seqZ (lo c : Z) (n : nat) : lo <= c < lo + Z.of_nat n -> In c (seqZ lo n).
Proof.
  intro H. unfold seqZ. apply in_map_iff. exists (Z.to_nat (c - lo)).
  split; [lia|]. apply in_seq. lia.
Qed.

Lemma space_fixed (c : Z) :
  is_space c = true -> lower_fixed c = true /\ case_ignorable c = false /\ cased c = false.
Proof.
  intro H. assert (Hin : In c space_points).
  { unfold is_space in H. unfold space_points.
    repeat (apply orb_true_iff in H; destruct H as [H|H]);
      rewrite ?andb_true_iff, ?Z.leb_le, ?Z.eqb_eq in H;
      repeat (apply in_or_app; first [left; apply in_seqZ; simpl; lia | right]);
      try (apply in_seqZ; simpl; lia). }
  pose proof spaces_ok_true as S. unfold spaces_ok in S. rewrite forallb_forall in S.
  specialize (S c Hin). rewrite !andb_true_iff, !negb_true_iff in S. tauto.
Qed.

Lemma lower_full_cases (c : Z) :
  c <> 304 ->
  (exists r, In r lower_runs /\ in_run r c = true /\ lower_full c = [c + run_delta r])
  \/ lower_full c = [c].
Proof.
  intro H. unfold lower_full. apply Z.eqb_neq in H. rewrite H.
  destruct (find (fun r => in_run r c) lower_runs) as [r|] eqn:E; [left | right; reflexivity].
  exists r. destruct (find_some _ _ E) as [Hin Hr]. split; [exact Hin|]. split; [exact Hr|].
  destruct r as [[[lo hi] st] d]. reflexivity.
Qed.

Lemma lower_at_out (bf af : ustr) (c y : Z) :
  In y (lower_at bf af c) ->
  lower_fixed y = true /\ (is_space c = false -> is_space y = false)
  /\ (removed c = false -> removed y = false).
Proof.
  unfold lower_at. destruct (c =? 931) eqn:E9.
  - apply Z.eqb_eq in E9. subst c. intros [Hy | []]. subst y.
    destruct (final_sigma bf af); split; [vm_compute; reflexivity | split; intros _; vm_compute; reflexivity
                                        | vm_compute; reflexivity | split; intros _; vm_compute; reflexivity].
  - destruct (Z.eq_dec c 304) as [-> | N].
    + unfold lower_full. simpl. intros [Hy | [Hy | []]]; subst y;
        (split; [vm_compute; reflexivity | split; intros _; vm_compute; reflexivity]).
    + destruct (lower_full_cases c N) as [[r [Hr [Hc Hl]]] | Hl]; rewrite Hl; intros [Hy | []]; subst y.
      * pose proof (run_out r c Hr Hc) as P. unfold plain_out in P.
        rewrite !andb_true_iff, !negb_true_iff in P. tauto.
      * split; [|tauto]. unfold lower_fixed. rewrite Hl, Z.eqb_refl, E9. reflexivity.
Qed.

Lemma lower_at_fixed (bf af : ustr) (c : Z) : lower_fixed c = true -> lower_at bf af c = [c].
Proof.
  unfold lower_fixed, lower_at. destruct (lower_full c) as [|z [|z' l]] eqn:E; try discriminate.
  intro H. apply andb_true_iff in H as [H1 H2]. apply Z.eqb_eq in H1. subst z.
  apply negb_true_iff in H2. rewrite H2. reflexivity.
Qed.

Lemma final_sigma_split (bf af : ustr) : final_sigma bf af = before_cased bf && after_ok af.
Proof. unfold final_sigma, before_cased, after_ok. destruct (skip_case_ignorable bf); reflexivity. Qed.

Lemma lower_at_ctx (b1 b2 a1 a2 : ustr) (c : Z) :
  before_cased b1 = before_cased b2 -> after_ok a1 = after_ok a2 ->
  lower_at b1 a1 c = lower_at b2 a2 c.
Proof. intros Hb Ha. unfold lower_at. rewrite !final_sigma_split, Hb, Ha. reflexivity. Qed.

Lemma before_cased_cons (c : Z) (bf : ustr) :
  before_cased (c :: bf) = if case_ignorable c then before_cased bf else cased c.
Proof. unfold before_cased. simpl. destruct (case_ignorable c); reflexivity. Qed.

Lemma skip_case_ignorable_app (x y : ustr) :
  skip_case_ignorable (x ++ y)
  = match skip_case_ignorable x with Some d => Some d | None => skip_case_ignorable y end.
Proof.
  induction x as [|c r IH]; [reflexivity|]. simpl. destruct (case_ignorable c); [exact IH | reflexivity].
Qed.

Lemma lower_go_ctx (s : ustr) :
  forall b1 b2, before_cased b1 = before_cased b2 -> lower_go b1 s = lower_go b2 s.
Proof.
  induction s as [|c r IH]; intros b1 b2 H; [reflexivity|]. simpl.
  rewrite (lower_at_ctx b1 b2 r r c H eq_refl). f_equal. apply IH.
  rewrite !before_cased_cons. destruct (case_ignorable c); [exact H | reflexivity].
Qed.

Lemma lower_go_out (s bf : ustr) (y : Z) :
  In y (lower_go bf s) ->
  exists c, In c s /\ lower_fixed y = true /\ (is_space c = false -> is_space y = false)
            /\ (removed c = false -> removed y = false).
Proof.
  revert bf. induction s as [|c r IH]; intros bf H; [destruct H|]. simpl in H.
  apply in_app_or in H as [H | H].
  - exists c. split; [left; reflexivity | exact (lower_at_out _ _ _ _ H)].
  - destruct (IH _ H) as [c' [Hc' P]]. exists c'. split; [right; exact Hc' | exact P].
Qed.

Lemma lower_go_fixed (l bf : ustr) : forallb lower_fixed l = true -> lower_go bf l = l.
Proof.
  revert bf. induction l as [|c r IH]; intros bf H; [reflexivity|].
  simpl in H. apply andb_true_iff in H as [Hc Hr]. simpl.
  rewrite (lower_at_fixed _ _ _ Hc), (IH _ Hr). reflexivity.
Qed.

Lemma lower_idem (s : ustr) : lower (lower s) = lower s.
Proof.
  unfold lower at 1. apply lower_go_fixed. apply forallb_forall. intros y Hy.
  destruct (lower_go_out _ _ _ Hy) as [c [_ [H _]]]. exact H.
Qed.

Lemma lower_space_prefix (w y bf : ustr) :
  forallb is_space w = true -> lower_go bf (w ++ y) = w ++ lower_go (rev w ++ bf) y.
Proof.
  revert bf. induction w as [|c r IH]; intros bf H; [reflexivity|].
  simpl in H. apply andb_true_iff in H as [Hc Hr]. cbn [app lower_go].
  rewrite (lower_at_fixed _ _ _ (proj1 (space_fixed c Hc))), (IH _ Hr).
  cbn [rev]. rewrite <- app_assoc. reflexivity.
Qed.

Lemma space_run_last (w : ustr) :
  w <> [] -> forallb is_space w = true ->
  exists c l, rev w = c :: l /\ is_space c = true.
Proof.
  intros N H. destruct (rev w) as [|c l] eqn:E.
  - apply (f_equal (@rev Z)) in E. rewrite rev_involutive in E. contradiction.
  - exists c, l. split; [reflexivity|]. rewrite forallb_forall in H. apply H.
    apply in_rev. rewrite E. left. reflexivity.
Qed.

Lemma before_cased_spaces (w bf : ustr) :
  w <> [] -> forallb is_space w = true -> before_cased (rev w ++ bf) = false.
Proof.
  intros N H. destruct (space_run_last w N H) as [c [l [E Hc]]]. rewrite E.
  destruct (space_fixed c Hc) as [_ [Hi Hk]]. cbn [app]. rewrite before_cased_cons, Hi. exact Hk.
Qed.

Lemma after_ok_spaces (w y : ustr) :
  w <> [] -> forallb is_space w = true -> after_ok (w ++ y) = true.
Proof.
  intros N H. destruct w as [|c r]; [contradiction|]. simpl in H. apply andb_true_iff in H as [Hc _].
  destruct (space_fixed c Hc) as [_ [Hi Hk]]. unfold after_ok. simpl. rewrite Hi, Hk. reflexivity.
Qed.

(** Lower-casing acts separately on the two sides of a whitespace run. *)
Lemma lower_space_split (x w y : ustr) :
  w <> [] -> forallb is_space w = true -> lower (x ++ w ++ y) = lower x ++ w ++ lower y.
Proof.
  intros N H. unfold lower.
  assert (G : forall bf, lower_go bf (x ++ w ++ y) = lower_go bf x ++ w ++ lower_go [] y);
    [|apply G].
  induction x as [|c r IH]; intro bf.
  - cbn [app lower_go]. rewrite (lower_space_prefix _ _ _ H). f_equal.
    apply lower_go_ctx. rewrite before_cased_spaces by assumption. reflexivity.
  - cbn [app lower_go]. rewrite IH, app_assoc. f_equal. f_equal. apply lower_at_ctx; [reflexivity|].
    unfold after_ok. rewrite skip_case_ignorable_app.
    destruct (skip_case_ignorable r) as [d|]; [reflexivity|].
    fold (after_ok (w ++ y)). apply after_ok_spaces; assumption.
Qed.

Lemma lower_spaces (w : ustr) : forallb is_space w = true -> lower w = w.
Proof. intro H. unfold lower. rewrite <- (app_nil_r w) at 1. rewrite lower_space_prefix by exact H.
  rewrite app_nil_r. reflexivity. Qed.

(** Lower-casing leaves surrounding whitespace runs in place. *)
Lemma lower_spaces_around (p m q : ustr) :
  forallb is_space p = true -> forallb is_space q = true -> lower (p ++ m ++ q) = p ++ lower m ++ q.
Proof.
  intros Hp Hq.
  assert (Hr : lower (m ++ q) = lower m ++ q).
  { destruct q as [|c r]; [rewrite !app_nil_r; reflexivity|].
    rewrite <- (app_nil_r (c :: r)) at 1. rewrite lower_space_split by (discriminate || exact Hq).
    rewrite app_nil_r. reflexivity. }
  destruct p as [|c r]; [exact Hr|].
  change (lower ([] ++ (c :: r) ++ m ++ q) = (c :: r) ++ lower m ++ q).
  rewrite lower_space_split by (discriminate || exact Hp). rewrite Hr. reflexivity.
Qed.

(** ** Classifier *)

Lemma any_in_cons (k : string) (ks : list string) (t : ustr) :
  any_in (k :: ks) t = contains (u k) t || any_in ks t.
Proof. reflexivity. Qed.

(** C5: [classify] is total over all titles (the empty one included) with a
    value among the five categories, depends on the title only through its
    lower-cased form, agrees with the first-match priority table
    Security, Regulation, Biz/Capital, Markets, General, and so classifies a
    title containing both "hack" and "sec" as Security. *)
Theorem classify_total_priority (t : ustr) :
  In (classify t) categories
  /\ classify (lower t) = classify t
  /\ classify t = classify_by_priority t
  /\ (contains (u "hack") (lower t) = true -> contains (u "sec") (lower t) = true ->
      classify t = "Security")
  /\ classify [] = "General".
Proof.
  assert (Hprio : classify t = classify_by_priority t).
  { unfold classify, classify_by_priority, category_table. cbn -[any_in lower].
    destruct (any_in security_kws (lower t)); [reflexivity|].
    destruct (any_in regulation_kws (lower t)); [reflexivity|].
    destruct (any_in biz_kws (lower t)); [reflexivity|].
    destruct (any_in markets_kws (lower t)); reflexivity. }
  split; [|split; [|split; [exact Hprio|split]]].
  - unfold classify, categories.
    destruct (any_in security_kws (lower t)); [simpl; tauto|].
    destruct (any_in regulation_kws (lower t)); [simpl; tauto|].
    destruct (any_in biz_kws (lower t)); [simpl; tauto|].
    destruct (any_in markets_kws (lower t)); simpl; tauto.
  - unfold classify. rewrite lower_idem. reflexivity.
  - intros Hh _. unfold classify.
    replace (any_in security_kws (lower t)) with true; [reflexivity|].
    symmetry. unfold security_kws. rewrite any_in_cons, Hh. reflexivity.
  - reflexivity.
Qed.

(** ** Scorer *)

Section Rounding.
Local Open Scope Q_scope.

Lemma round1_cases (x : Q) :
  round1 x = Qmake (Qfloor (x * 10)) 10
  \/ (round1 x = Qmake (Qfloor (x * 10) + 1) 10 /\ inject_Z (Qfloor (x * 10)) < x * 10).
Proof.
  unfold round1. cbv zeta.
  destruct (Qlt_le_dec (x * 10 - inject_Z (Qfloor (x * 10))) (1 # 2)) as [H1|H1].
  - left. reflexivity.
  - assert (Hlt : inject_Z (Qfloor (x * 10)) < x * 10).
    { assert (H0 : 0 < 1 # 2) by reflexivity. lra. }
    destruct (Qlt_le_dec (1 # 2) (x * 10 - inject_Z (Qfloor (x * 10)))).
    + right. split; [reflexivity | exact Hlt].
    + destruct (Z.even (Qfloor (x * 10))); [left | right]; auto.
Qed.

Lemma floor_facts (x : Q) :
  inject_Z (Qfloor (x * 10)) <= x * 10 /\ x * 10 < inject_Z (Qfloor (x * 10)) + 1.
Proof.
  split; [apply Qfloor_le|].
  rewrite <- (inject_Z_plus _ 1). apply Qlt_floor.
Qed.

Lemma Qmake10_le (k m : Z) : (Qmake k 10 <= inject_Z m) <-> (k <= 10 * m)%Z.
Proof. unfold Qle, inject_Z. cbn [Qnum Qden]. split; intro; lia. Qed.

Lemma Qmake10_ge (k m : Z) : (inject_Z m <= Qmake k 10) <-> (10 * m <= k)%Z.
Proof. unfold Qle, inject_Z. cbn [Qnum Qden]. split; intro; lia. Qed.

(** Rounding a value of [[0, 10]] gives a whole number of tenths in
    [[0, 100]]. *)
Lemma round1_range (x : Q) :
  0 <= x -> x <= 10 -> exists k, round1 x = Qmake k 10 /\ (0 <= k <= 100)%Z.
Proof.
  intros H0 H10.
  destruct (floor_facts x) as [Hf1 Hf2].
  set (f := Qfloor (x * 10)) in *.
  assert (Hlo : (0 <= f)%Z).
  { assert (inject_Z (-1) < inject_Z f) by (change (inject_Z (-1)) with ((-1) # 1); lra).
    rewrite <- Zlt_Qlt in H. lia. }
  assert (Hhi : (f <= 100)%Z).
  { rewrite Zle_Qle. change (inject_Z 100) with (100 # 1). lra. }
  destruct (round1_cases x) as [E | [E Hlt]]; fold f in E; [| fold f in Hlt].
  - exists f. split; [exact E | lia].
  - exists (f + 1)%Z. split; [exact E|].
    assert (inject_Z f < inject_Z 100) by (change (inject_Z 100) with (100 # 1); lra).
    rewrite <- Zlt_Qlt in H. lia.
Qed.

Lemma round1_nonneg (x : Q) : 0 <= x -> exists k, round1 x = Qmake k 10 /\ (0 <= k)%Z.
Proof.
  intros H0.
  destruct (floor_facts x) as [Hf1 Hf2].
  set (f := Qfloor (x * 10)) in *.
  assert (Hlo : (0 <= f)%Z).
  { assert (inject_Z (-1) < inject_Z f) by (change (inject_Z (-1)) with ((-1) # 1); lra).
    rewrite <- Zlt_Qlt in H. lia. }
  destruct (round1_cases x) as [E | [E _]]; fold f in E;
    [exists f | exists (f + 1)%Z]; split; auto; lia.
Qed.

Lemma round1_ge10 (x : Q) : 10 <= x -> exists k, round1 x = Qmake k 10 /\ (100 <= k)%Z.
Proof.
  intros H10.
  destruct (floor_facts x) as [Hf1 Hf2].
  set (f := Qfloor (x * 10)) in *.
  assert (Hlo : (100 <= f)%Z).
  { assert (inject_Z 99 < inject_Z f) by (change (inject_Z 99) with (99 # 1); lra).
    rewrite <- Zlt_Qlt in H. lia. }
  destruct (round1_cases x) as [E | [E _]]; fold f in E;
    [exists f | exists (f + 1)%Z]; split; auto; lia.
Qed.

Lemma py_min_range (a b : Q) : 0 <= a -> 0 <= b -> 0 <= py_min a b <= a.
Proof.
  intros Ha Hb. unfold py_min.
  destruct (Qlt_le_dec b a); lra.
Qed.

Lemma add_keywords_ge (t : ustr) (kws : list (string * Q)) (b : Q) :
  Forall (fun p => 0 <= snd p) kws -> b <= add_keywords t kws b.
Proof.
  revert b. induction kws as [|[k w] r IH]; intros b Hf; simpl.
  - lra.
  - inversion Hf as [|? ? Hw Hr]; subst. simpl in Hw.
    specialize (IH (if contains (u k) t then b + w else b) Hr).
    destruct (contains (u k) t); lra.
Qed.

Lemma base_score_pos (t : ustr) (k : yaml) : 0 <= base_score t k.
Proof.
  unfold base_score.
  assert (Hf : Forall (fun p => 0 <= snd p) score_keywords)
    by (repeat constructor; unfold Qle; simpl; lia).
  destruct (py_eq_str k "news");
    (eapply Qle_trans; [| apply add_keywords_ge; exact Hf]); unfold Qle; simpl; lia.
Qed.

Lemma score_item_range (t : ustr) (k : yaml) : 0 <= score_item t k <= 10.
Proof.
  unfold score_item.
  destruct (round1_nonneg (base_score t k) (base_score_pos t k)) as [n [E Hn]].
  rewrite E. apply py_min_range; [unfold Qle; simpl; lia|].
  apply Qmake10_ge with (m := 0%Z). lia.
Qed.

End Rounding.

(** C4: for every title, kind and positive weight, the score stored in an
    [Item] is a whole number [n] of tenths with [0 <= n <= 100], so it lies in
    [[0.0, 10.0]] and has at most one decimal. *)
Theorem item_score_bounded (t : ustr) (k : yaml) (w : Q) (Hw : (0 < w)%Q) :
  exists n, item_score t k w = Qmake n 10 /\ (0 <= n <= 100)%Z
            /\ (0 <= item_score t k w <= 10)%Q.
Proof.
  unfold item_score.
  destruct (score_item_range t k) as [H0 H10].
  assert (Hp : (0 <= score_item t k * w)%Q).
  { apply Qmult_le_0_compat; [exact H0 | apply Qlt_le_weak; exact Hw]. }
  destruct (py_min_range 10 (score_item t k * w)) as [Hm0 Hm10];
    [unfold Qle; simpl; lia | exact Hp |].
  destruct (round1_range _ Hm0 Hm10) as [n [E Hn]].
  exists n. rewrite E. split; [reflexivity|]. split; [exact Hn|].
  split; [apply Qmake10_ge with (m := 0%Z) | apply Qmake10_le with (m := 10%Z)]; lia.
Qed.

Lemma item_score_bounded_witness :
  (0 < 1)%Q /\ exists n, item_score (u "Hack") (YStr (u "news")) 1 = Qmake n 10
  /\ (0 <= n <= 100)%Z /\ (0 <= item_score (u "Hack") (YStr (u "news")) 1 <= 10)%Q.
Proof.
  split; [reflexivity|].
  apply (item_score_bounded (u "Hack") (YStr (u "news")) 1). reflexivity.
Defined.

Lemma score_item_saturated (t : ustr) (k : yaml) :
  (10 <= base_score t k)%Q -> score_item t k = 10%Q.
Proof.
  intros H. unfold score_item.
  destruct (round1_ge10 _ H) as [n [E Hn]]. rewrite E.
  unfold py_min. destruct (Qlt_le_dec (Qmake n 10) 10) as [Hlt|]; [|reflexivity].
  exfalso. apply Qlt_not_le in Hlt. apply Hlt. apply (Qmake10_ge n 10). lia.
Qed.

(** C1 (as the code does it): for every title, kind and weight the stored score is
    [round(min(10, s * weight), 1)] where [s = min(10, round(base, 1))] is
    [score_item]'s result, so rounding and clamping are applied to the base
    before the weight and again after; in particular, once the accumulated
    base reaches 10 the stored score is [round(min(10, 10 * weight), 1)]
    whatever the keywords. *)
Theorem item_score_clamps_before_weight (t : ustr) (k : yaml) (w : Q) :
  item_score t k w = round1 (py_min 10 (py_min 10 (round1 (base_score t k)) * w))
  /\ ((10 <= base_score t k)%Q -> item_score t k w = round1 (py_min 10 (10 * w))).
Proof.
  split; [reflexivity|].
  intro Hbase. unfold item_score. rewrite (score_item_saturated t k Hbase). reflexivity.
Qed.

(** C1 fails as stated: with the title
    "Exploit hack drain SEC lawsuit court ETF" (base 20.1) of a "news" source
    of weight 0.4 the stored score is 4.0, while weighting the accumulated
    base first and clamping and rounding afterwards gives 8.0. *)
Lemma weight_then_clamp_counterexample :
  item_score (u "Exploit hack drain SEC lawsuit court ETF") (YStr (u "news")) (2 # 5) = Qmake 40 10
  /\ round1 (py_min 10 (base_score (u "Exploit hack drain SEC lawsuit court ETF") (YStr (u "news")) * (2 # 5)))
     = Qmake 80 10
  /\ ~ (item_score (u "Exploit hack drain SEC lawsuit court ETF") (YStr (u "news")) (2 # 5)
        == round1 (py_min 10 (base_score (u "Exploit hack drain SEC lawsuit court ETF") (YStr (u "news")) * (2 # 5))))%Q.
Proof.
  split; [vm_compute; reflexivity|]. split; [vm_compute; reflexivity|].
  vm_compute. intro H. discriminate H.
Qed.

(** ** Ranking order *)

Lemma ustr_ltb_irrefl (a : ustr) : ustr_ltb a a = false.
Proof.
  induction a as [|x a IH]; simpl; [reflexivity|].
  rewrite Z.ltb_irrefl. exact IH.
Qed.

Lemma ustr_ltb_trans (a b c : ustr) :
  ustr_ltb a b = true -> ustr_ltb b c = true -> ustr_ltb a c = true.
Proof.
  revert b c. induction a as [|x a IH]; intros [|y b] [|z c]; simpl; try discriminate; auto.
  destruct (x <? y) eqn:E1, (y <? x) eqn:E2, (y <? z) eqn:E3, (z <? y) eqn:E4;
    rewrite ?Z.ltb_lt, ?Z.ltb_ge in *; try discriminate; intros H1 H2;
    destruct (x <? z) eqn:E5, (z <? x) eqn:E6; rewrite ?Z.ltb_lt, ?Z.ltb_ge in *;
    try reflexivity; try lia.
  assert (x = y) by lia. assert (y = z) by lia. subst. eauto.
Qed.

Lemma ustr_ltb_total (a b : ustr) : ustr_ltb a b = false -> ustr_ltb b a = false -> a = b.
Proof.
  revert b. induction a as [|x a IH]; intros [|y b]; simpl; try discriminate; auto.
  destruct (x <? y) eqn:E1, (y <? x) eqn:E2; rewrite ?Z.ltb_lt, ?Z.ltb_ge in *;
    try discriminate; intros H1 H2.
  assert (x = y) by lia. subst. f_equal. auto.
Qed.

Lemma Qltb_iff (p q : Q) : Qltb p q = true <-> (p < q)%Q.
Proof.
  unfold Qltb. rewrite negb_true_iff. split; intro H.
  - apply Qnot_le_lt. intro H'. apply Qle_bool_iff in H'. congruence.
  - destruct (Qle_bool q p) eqn:E; [|reflexivity].
    apply Qle_bool_iff in E. exfalso. apply (Qlt_not_le _ _ H E).
Qed.

Lemma key_lt_iff (a b : Item) :
  key_lt a b = true <->
  ((score b < score a)%Q
   \/ ((score a == score b)%Q /\ ustr_ltb (published_sgt a) (published_sgt b) = true)).
Proof.
  unfold key_lt. rewrite orb_true_iff, andb_true_iff, Qltb_iff, Qeq_bool_iff. tauto.
Qed.

Lemma key_lt_false (a b : Item) :
  key_lt a b = false <->
  ~ ((score b < score a)%Q
     \/ ((score a == score b)%Q /\ ustr_ltb (published_sgt a) (published_sgt b) = true)).
Proof.
  rewrite <- key_lt_iff. destruct (key_lt a b); split; congruence.
Qed.

Lemma key_lt_asym (a b : Item) : key_lt a b = true -> key_lt b a = false.
Proof.
  rewrite key_lt_iff, key_lt_false. intros H1 H2.
  destruct H1 as [H1 | [H1 H1']], H2 as [H2 | [H2 H2']]; try lra.
  pose proof (ustr_ltb_trans _ _ _ H1' H2') as H. rewrite ustr_ltb_irrefl in H. discriminate.
Qed.

Lemma key_lt_irrefl (a : Item) : key_lt a a = false.
Proof.
  destruct (key_lt a a) eqn:E; [|reflexivity].
  pose proof (key_lt_asym _ _ E). congruence.
Qed.

Lemma key_lt_negtrans (a b c : Item) :
  key_lt a c = true -> key_lt a b = true \/ key_lt b c = true.
Proof.
  rewrite !key_lt_iff.
  intros [H | [H H']].
  - destruct (Qlt_le_dec (score b) (score a)); [left; left; assumption|].
    right. left. lra.
  - destruct (Qlt_le_dec (score b) (score a)); [left; left; assumption|].
    destruct (Qlt_le_dec (score a) (score b)); [right; left; lra|].
    assert (Hab : (score a == score b)%Q) by lra.
    destruct (ustr_ltb (published_sgt a) (published_sgt b)) eqn:E1;
      [left; right; split; [exact Hab | reflexivity]|].
    destruct (ustr_ltb (published_sgt b) (published_sgt c)) eqn:E2;
      [right; right; split; [lra | reflexivity]|].
    exfalso.
    destruct (ustr_ltb (published_sgt b) (published_sgt a)) eqn:E3.
    + pose proof (ustr_ltb_trans _ _ _ E3 H'). congruence.
    + pose proof (ustr_ltb_total _ _ E1 E3) as Heq. rewrite Heq in H'. congruence.
Qed.

Lemma le_key_refl (a : Item) : le_key a a.
Proof. apply key_lt_irrefl. Qed.

Lemma le_key_trans (a b c : Item) : le_key a b -> le_key b c -> le_key a c.
Proof.
  unfold le_key. intros H1 H2.
  destruct (key_lt c a) eqn:E; [|reflexivity].
  destruct (key_lt_negtrans _ b _ E); congruence.
Qed.

Lemma le_key_total (a b : Item) : le_key a b \/ le_key b a.
Proof.
  unfold le_key. destruct (key_lt b a) eqn:E; [right; apply key_lt_asym; exact E | left; reflexivity].
Qed.

(** ** Stable insertion sort *)

Lemma insert_perm (x : Item) (l : list Item) : Permutation (x :: l) (insert x l).
Proof.
  induction l as [|y r IH]; simpl; [reflexivity|].
  destruct (key_lt y x); [|reflexivity].
  rewrite perm_swap. constructor. exact IH.
Qed.

Lemma isort_perm (l : list Item) : Permutation l (isort l).
Proof.
  induction l as [|x r IH]; simpl; [reflexivity|].
  rewrite <- insert_perm. constructor. exact IH.
Qed.

Lemma insert_hdrel (x y : Item) (l : list Item) :
  le_key y x -> HdRel le_key y l -> HdRel le_key y (insert x l).
Proof.
  intros Hyx Hl. destruct l as [|z r]; simpl.
  - constructor. exact Hyx.
  - inversion Hl; subst. destruct (key_lt z x); constructor; assumption.
Qed.

Lemma insert_sorted (x : Item) (l : list Item) :
  Sorted le_key l -> Sorted le_key (insert x l).
Proof.
  induction l as [|y r IH]; intros Hs; simpl.
  - repeat constructor.
  - apply Sorted_inv in Hs as [Hr Hh].
    destruct (key_lt y x) eqn:E.
    + constructor; [apply IH; exact Hr|].
      apply insert_hdrel; [apply key_lt_asym; exact E | exact Hh].
    + constructor; [constructor; assumption|]. constructor. exact E.
Qed.

Lemma isort_sorted (l : list Item) : StronglySorted le_key (isort l).
Proof.
  apply Sorted_StronglySorted; [exact le_key_trans|].
  induction l as [|x r IH]; simpl; [constructor|].
  apply insert_sorted. exact IH.
Qed.

Lemma isort_id (l : list Item) : StronglySorted le_key l -> isort l = l.
Proof.
  induction l as [|x r IH]; intros Hs; simpl; [reflexivity|].
  apply StronglySorted_inv in Hs as [Hr Hf].
  rewrite (IH Hr). destruct r as [|y r']; simpl; [reflexivity|].
  inversion Hf as [|? ? Hxy _]; subst. unfold le_key in Hxy. rewrite Hxy. reflexivity.
Qed.

(** ** Deduplication *)

Lemma ustr_eqb_true (a b : ustr) : ustr_eqb a b = true <-> a = b.
Proof. unfold ustr_eqb. destruct (list_eq_dec Z.eq_dec a b); split; congruence. Qed.

Lemma existsb_key (k : ustr) (seen : list ustr) : existsb (ustr_eqb k) seen = true <-> In k seen.
Proof.
  rewrite existsb_exists. split.
  - intros [k' [Hin Heq]]. apply ustr_eqb_true in Heq. subst. exact Hin.
  - intros Hin. exists k. split; [exact Hin | apply ustr_eqb_true; reflexivity].
Qed.

Lemma dedup_loop_incl (seen : list ustr) (l : list Item) (x : Item) :
  In x (dedup_loop seen l) -> In x l.
Proof.
  revert seen. induction l as [|a r IH]; intros seen; simpl; [tauto|].
  destruct (existsb _ seen).
  - intros H. right. eapply IH. exact H.
  - intros [H | H]; [left; exact H | right; eapply IH; exact H].
Qed.

Lemma dedup_loop_unseen (seen : list ustr) (l : list Item) (x : Item) :
  In x (dedup_loop seen l) -> ~ In (key_of x) seen.
Proof.
  revert seen. induction l as [|a r IH]; intros seen; simpl; [tauto|].
  destruct (existsb (ustr_eqb (normalize_title (title a))) seen) eqn:E.
  - apply IH.
  - intros [H | H].
    + subst. intros Hin. apply (existsb_key _ seen) in Hin. unfold key_of in Hin. congruence.
    + intros Hin. apply (IH _ H). right. exact Hin.
Qed.

Lemma dedup_loop_distinct (seen : list ustr) (l : list Item) :
  ForallOrdPairs (fun a b => key_of a <> key_of b) (dedup_loop seen l).
Proof.
  revert seen. induction l as [|a r IH]; intros seen; simpl; [constructor|].
  destruct (existsb (ustr_eqb (normalize_title (title a))) seen); [apply IH|].
  constructor; [|apply IH].
  apply Forall_forall. intros y Hy Heq.
  apply (dedup_loop_unseen _ _ _ Hy). left. unfold key_of in *. congruence.
Qed.

Lemma dedup_loop_sorted (seen : list ustr) (l : list Item) :
  StronglySorted le_key l -> StronglySorted le_key (dedup_loop seen l).
Proof.
  revert seen. induction l as [|a r IH]; intros seen Hs; simpl; [constructor|].
  apply StronglySorted_inv in Hs as [Hr Hf].
  destruct (existsb _ seen); [apply IH; exact Hr|].
  constructor; [apply IH; exact Hr|].
  apply Forall_forall. intros y Hy.
  apply (proj1 (Forall_forall _ _) Hf). eapply dedup_loop_incl. exact Hy.
Qed.

Lemma dedup_loop_id (seen : list ustr) (l : list Item) :
  ForallOrdPairs (fun a b => key_of a <> key_of b) l ->
  (forall x, In x l -> ~ In (key_of x) seen) ->
  dedup_loop seen l = l.
Proof.
  revert seen. induction l as [|a r IH]; intros seen Hd Hs; simpl; [reflexivity|].
  inversion Hd as [|? ? Hf Hr]; subst.
  destruct (existsb (ustr_eqb (normalize_title (title a))) seen) eqn:E.
  - exfalso. apply existsb_key in E. apply (Hs a); [left; reflexivity | exact E].
  - f_equal. apply IH; [exact Hr|].
    intros x Hx [Hk | Hk].
    + apply (proj1 (Forall_forall _ _) Hf x Hx). unfold key_of in *. congruence.
    + apply (Hs x); [right; exact Hx | exact Hk].
Qed.

(** Every item of a ranked list whose key is not yet seen is represented in
    the output by an item with the same key that ranks no later. *)
Lemma dedup_loop_first (seen : list ustr) (l : list Item) (x : Item) :
  StronglySorted le_key l -> In x l -> ~ In (key_of x) seen ->
  exists y, In y (dedup_loop seen l) /\ key_of y = key_of x /\ le_key y x.
Proof.
  revert seen. induction l as [|a r IH]; intros seen Hs Hx Hn; [destruct Hx|].
  apply StronglySorted_inv in Hs as [Hr Hf]. simpl.
  destruct (existsb (ustr_eqb (normalize_title (title a))) seen) eqn:E.
  - destruct Hx as [Hx | Hx].
    + subst. apply existsb_key in E. contradiction.
    + apply IH; assumption.
  - destruct Hx as [Hx | Hx].
    + subst. exists x. split; [left; reflexivity | split; [reflexivity | apply le_key_refl]].
    + destruct (list_eq_dec Z.eq_dec (key_of x) (key_of a)) as [Hk | Hk].
      * exists a. split; [left; reflexivity | split; [symmetry; exact Hk|]].
        exact (proj1 (Forall_forall _ _) Hf x Hx).
      * destruct (IH (normalize_title (title a) :: seen) Hr Hx) as [y [Hy1 [Hy2 Hy3]]].
        { intros [H | H]; [apply Hk; symmetry; exact H | exact (Hn H)]. }
        exists y. split; [right; exact Hy1 | split; assumption].
Qed.

Lemma dedup_sorted (items : list Item) : StronglySorted le_key (dedup items).
Proof. apply dedup_loop_sorted. apply isort_sorted. Qed.

(** C7: the items [dedup] returns have pairwise different normalized titles;
    every input item is represented by the first item of its key in ranked
    order (same key, ranking no later); and [dedup] applied to its own output
    returns it unchanged. *)
Theorem dedup_keys_distinct (items : list Item) :
  ForallOrdPairs (fun a b => normalize_title (title a) <> normalize_title (title b)) (dedup items)
  /\ (forall x, In x items ->
        exists y, In y (dedup items)
                  /\ normalize_title (title y) = normalize_title (title x) /\ le_key y x)
  /\ dedup (dedup items) = dedup items.
Proof.
  split; [apply dedup_loop_distinct|]. split.
  - intros x Hx. apply dedup_loop_first; [apply isort_sorted | | intros []].
    apply (Permutation_in _ (isort_perm items)). exact Hx.
  - unfold dedup at 1. rewrite (isort_id _ (dedup_sorted items)).
    apply dedup_loop_id; [apply dedup_loop_distinct | intros x _ []].
Qed.

(** C2 (as the code does it): [dedup] ranks items by the key
    [(-score, published_sgt)] in ascending order, so its output is sorted by
    descending score and, on equal scores, by ascending [published_sgt]; and
    each input item is represented in the output by an item with the same
    normalized title whose score is higher, or equal with a [published_sgt]
    not greater (the earlier timestamp, for timestamps in one format and
    zone). *)
Theorem dedup_ranks_score_then_earlier (items : list Item) :
  StronglySorted le_key (dedup items)
  /\ (forall x, In x items ->
        exists y, In y (dedup items)
          /\ normalize_title (title y) = normalize_title (title x)
          /\ ((score x < score y)%Q
              \/ ((score y == score x)%Q /\ ustr_ltb (published_sgt x) (published_sgt y) = false))).
Proof.
  split; [apply dedup_sorted|].
  intros x Hx.
  destruct (dedup_loop_first [] (isort items) x (isort_sorted items)
              (Permutation_in _ (isort_perm items) Hx) (fun H => H)) as [y [Hy1 [Hy2 Hy3]]].
  exists y. split; [exact Hy1|]. split; [exact Hy2|].
  unfold le_key in Hy3. rewrite key_lt_false in Hy3.
  destruct (Qlt_le_dec (score x) (score y)) as [H|H]; [left; exact H|].
  right. split.
  - destruct (Qlt_le_dec (score y) (score x)); [exfalso; apply Hy3; left; assumption | lra].
  - destruct (ustr_ltb (published_sgt x) (published_sgt y)) eqn:E; [|reflexivity].
    exfalso. apply Hy3. right. split; [|reflexivity].
    destruct (Qlt_le_dec (score y) (score x)); [exfalso; apply Hy3; left; assumption | lra].
Qed.

(** C2 fails as stated: of two items with the same normalized title and the
    same score, [dedup] keeps the one published at 10:00, not the one
    published at 11:00. *)
Lemma dedup_keeps_earlier_counterexample :
  dedup [sample_item "Exchange Hacked" "2025-01-01T11:00:00+08:00" 5;
         sample_item "exchange hacked" "2025-01-01T10:00:00+08:00" 5]
  = [sample_item "exchange hacked" "2025-01-01T10:00:00+08:00" 5]
  /\ dedup [sample_item "Exchange Hacked" "2025-01-01T11:00:00+08:00" 5;
           sample_item "exchange hacked" "2025-01-01T10:00:00+08:00" 5]
     <> [sample_item "Exchange Hacked" "2025-01-01T11:00:00+08:00" 5].
Proof.
  split; [vm_compute; reflexivity|].
  vm_compute. intro H. inversion H.
Qed.

(** ** Section selection *)

Lemma yaml_eqb_sym (a b : yaml) :
  (if yaml_eq_dec a b then true else false) = (if yaml_eq_dec b a then true else false).
Proof. destruct (yaml_eq_dec a b), (yaml_eq_dec b a); congruence. Qed.

Lemma ustr_eqb_sym (a b : ustr) : ustr_eqb a b = ustr_eqb b a.
Proof. unfold ustr_eqb. destruct (list_eq_dec Z.eq_dec a b), (list_eq_dec Z.eq_dec b a); congruence. Qed.

Lemma Qeq_bool_comm (a b : Q) : Qeq_bool a b = Qeq_bool b a.
Proof.
  destruct (Qeq_bool a b) eqn:E1, (Qeq_bool b a) eqn:E2; try reflexivity.
  - apply Qeq_bool_sym in E1. congruence.
  - apply Qeq_bool_sym in E2. congruence.
Qed.

Lemma item_eqb_sym (a b : Item) : item_eqb a b = item_eqb b a.
Proof.
  unfold item_eqb.
  rewrite (yaml_eqb_sym (source a)), (yaml_eqb_sym (source_id a)), (ustr_eqb_sym (title a)),
    (ustr_eqb_sym (link a)), (ustr_eqb_sym (published_sgt a)), (String.eqb_sym (cls a)),
    (Qeq_bool_comm (score a)), (yaml_eqb_sym (kind a)), (yaml_eqb_sym (lang a)).
  reflexivity.
Qed.

Lemma py_in_false (x : Item) (l : list Item) (y : Item) :
  py_in x l = false -> In y l -> item_eqb x y = false.
Proof.
  unfold py_in. intros H Hy.
  destruct (item_eqb x y) eqn:E; [|reflexivity].
  assert (existsb (item_eqb x) l = true) by (apply existsb_exists; exists y; auto).
  congruence.
Qed.

Lemma nodup_items_pairs (l : list Item) : nodup_items l = true -> ForallOrdPairs item_ne l.
Proof.
  induction l as [|x r IH]; simpl; intros H; [constructor|].
  apply andb_true_iff in H as [H1 H2]. apply negb_true_iff in H1.
  constructor; [|apply IH; exact H2].
  apply Forall_forall. intros y Hy. exact (py_in_false _ _ _ H1 Hy).
Qed.

Lemma pairs_perm (l l' : list Item) :
  Permutation l l' -> ForallOrdPairs item_ne l -> ForallOrdPairs item_ne l'.
Proof.
  induction 1 as [| x l l' Hp IH | x y l | l l' l'' H1 IH1 H2 IH2]; intros Hd.
  - constructor.
  - inversion Hd as [|? ? Hf Hr]; subst. constructor; [|apply IH; exact Hr].
    apply Forall_forall. intros z Hz. apply (proj1 (Forall_forall _ _) Hf).
    apply (Permutation_in _ (Permutation_sym Hp)). exact Hz.
  - inversion Hd as [|? ? Hf Hr]; subst. inversion Hr as [|? ? Hf' Hr']; subst.
    inversion Hf as [|? ? Hyx Hfl]; subst.
    constructor; [constructor; [unfold item_ne in *; rewrite item_eqb_sym; exact Hyx | exact Hf']|].
    constructor; assumption.
  - apply IH2, IH1, Hd.
Qed.

Lemma pairs_filter (f : Item -> bool) (l : list Item) :
  ForallOrdPairs item_ne l -> ForallOrdPairs item_ne (filter f l).
Proof.
  induction l as [|x r IH]; simpl; intros Hd; [constructor|].
  inversion Hd as [|? ? Hf Hr]; subst.
  destruct (f x); [|apply IH; exact Hr].
  constructor; [|apply IH; exact Hr].
  apply Forall_forall. intros y Hy. apply filter_In in Hy as [Hy _].
  exact (proj1 (Forall_forall _ _) Hf y Hy).
Qed.

Lemma pairs_app (l1 l2 : list Item) :
  ForallOrdPairs item_ne (l1 ++ l2) -> forall x y, In x l1 -> In y l2 -> item_ne x y.
Proof.
  induction l1 as [|a r IH]; simpl; intros Hd x y Hx Hy; [destruct Hx|].
  inversion Hd as [|? ? Hf Hr]; subst. destruct Hx as [Hx | Hx].
  - subst. apply (proj1 (Forall_forall _ _) Hf). apply in_or_app. right. exact Hy.
  - apply (IH Hr x y Hx Hy).
Qed.

Lemma in_firstn_incl (n : nat) (l : list Item) (x : Item) : In x (firstn n l) -> In x l.
Proof. intros H. rewrite <- (firstn_skipn n l). apply in_or_app. left. exact H. Qed.

Lemma in_skipn_incl (n : nat) (l : list Item) (x : Item) : In x (skipn n l) -> In x l.
Proof. intros H. rewrite <- (firstn_skipn n l). apply in_or_app. right. exact H. Qed.

(** C3 (as the code does it): for every input in which no item occurs twice
    (such as [dedup]'s output, whose normalized titles differ), Breaking,
    Headlines and Quick are pairwise disjoint, every Breaking item has a score
    of at least 8.8, and the buckets hold at most 2, 5 and 12 items. *)
Theorem pick_sections_disjoint (items : list Item) (Hnd : nodup_items items = true) :
  let '(headlines, breaking, quick) := pick_sections items in
  disjoint breaking headlines /\ disjoint breaking quick /\ disjoint headlines quick
  /\ Forall (fun x => is_breaking x = true) breaking
  /\ (List.length breaking <= 2 /\ List.length headlines <= 5 /\ List.length quick <= 12)%nat.
Proof.
  unfold pick_sections. cbv zeta.
  set (sorted := isort items).
  set (breaking := firstn 2 (filter is_breaking sorted)).
  set (rest := filter (fun x => negb (py_in x breaking)) sorted).
  assert (Hrest : forall y, In y rest -> forall x, In x breaking -> item_eqb x y = false).
  { intros y Hy x Hx. apply filter_In in Hy as [_ Hy]. apply negb_true_iff in Hy.
    rewrite item_eqb_sym. exact (py_in_false _ _ _ Hy Hx). }
  assert (Hpairs : ForallOrdPairs item_ne rest).
  { apply pairs_filter. apply (pairs_perm items); [apply isort_perm|].
    apply nodup_items_pairs. exact Hnd. }
  split; [|split; [|split; [|split]]].
  - intros x y Hx Hy. apply (Hrest y (in_firstn_incl _ _ _ Hy) x Hx).
  - intros x y Hx Hy. apply (Hrest y (in_skipn_incl _ _ _ (in_firstn_incl _ _ _ Hy)) x Hx).
  - intros x y Hx Hy. apply (pairs_app (firstn 5 rest) (skipn 5 rest));
      [rewrite firstn_skipn; exact Hpairs | exact Hx | exact (in_firstn_incl _ _ _ Hy)].
  - apply Forall_forall. intros x Hx. apply in_firstn_incl, filter_In in Hx. apply Hx.
  - repeat split; apply firstn_le_length.
Qed.

Lemma pick_sections_disjoint_witness :
  nodup_items [sample_item "Exchange hacked" "2025-01-01T10:00:00+08:00" 9;
               sample_item "ETF approved" "2025-01-01T09:00:00+08:00" 6] = true
  /\ let '(headlines, breaking, quick) :=
       pick_sections [sample_item "Exchange hacked" "2025-01-01T10:00:00+08:00" 9;
                      sample_item "ETF approved" "2025-01-01T09:00:00+08:00" 6] in
     disjoint breaking headlines /\ disjoint breaking quick /\ disjoint headlines quick
     /\ Forall (fun x => is_breaking x = true) breaking
     /\ (List.length breaking <= 2 /\ List.length headlines <= 5 /\ List.length quick <= 12)%nat.
Proof.
  assert (H : nodup_items [sample_item "Exchange hacked" "2025-01-01T10:00:00+08:00" 9;
               sample_item "ETF approved" "2025-01-01T09:00:00+08:00" 6] = true)
    by (vm_compute; reflexivity).
  split; [exact H|].
  exact (pick_sections_disjoint _ H).
Defined.

(** C3 fails as stated for inputs with a repeated item: six copies of one
    item of score 5 put that item both in Headlines and in Quick. *)
Lemma pick_sections_repeated_counterexample :
  let '(headlines, breaking, quick) :=
    pick_sections (repeat (sample_item "Quiet day" "2025-01-01T10:00:00+08:00" 5) 6) in
  In (sample_item "Quiet day" "2025-01-01T10:00:00+08:00" 5) headlines
  /\ In (sample_item "Quiet day" "2025-01-01T10:00:00+08:00" 5) quick
  /\ item_eqb (sample_item "Quiet day" "2025-01-01T10:00:00+08:00" 5)
              (sample_item "Quiet day" "2025-01-01T10:00:00+08:00" 5) = true.
Proof.
  vm_compute. split; [left; reflexivity|]. split; [left; reflexivity | reflexivity].
Qed.

(** ** Title normalization *)

Lemma lstrip_suffix (l : ustr) : exists p, l = p ++ lstrip l.
Proof.
  induction l as [|c r [p Hp]]; simpl; [exists []; reflexivity|].
  destruct (is_space c); [exists (c :: p); simpl; f_equal; exact Hp | exists []; reflexivity].
Qed.

Lemma lstrip_first_ok (l : ustr) : first_ok (lstrip l) = true.
Proof.
  induction l as [|c r IH]; simpl; [reflexivity|].
  destruct (is_space c) eqn:E; [exact IH | simpl; rewrite E; reflexivity].
Qed.

Lemma first_ok_app (a b : ustr) : a <> [] -> first_ok (a ++ b) = first_ok a.
Proof. destruct a; [congruence | reflexivity]. Qed.

Lemma strip_ws (l : ustr) : first_ok (strip l) = true /\ last_ok (strip l) = true.
Proof.
  unfold strip, last_ok. rewrite rev_involutive. split; [|apply lstrip_first_ok].
  destruct (lstrip_suffix (rev (lstrip l))) as [p Hp].
  assert (HA : lstrip l = rev (lstrip (rev (lstrip l))) ++ rev p).
  { rewrite <- rev_app_distr, <- Hp, rev_involutive. reflexivity. }
  destruct (rev (lstrip (rev (lstrip l)))) as [|c r] eqn:E; [reflexivity|].
  rewrite <- (first_ok_app (c :: r) (rev p)); [|discriminate].
  rewrite <- HA. apply lstrip_first_ok.
Qed.

Lemma lstrip_incl (l : ustr) (c : Z) : In c (lstrip l) -> In c l.
Proof.
  destruct (lstrip_suffix l) as [p Hp]. intros H. rewrite Hp. apply in_or_app. right. exact H.
Qed.

Lemma strip_incl (l : ustr) (c : Z) : In c (strip l) -> In c l.
Proof.
  unfold strip. intros H. apply in_rev, lstrip_incl, in_rev, lstrip_incl in H. exact H.
Qed.

Lemma collapse_incl (b : bool) (l : ustr) (c : Z) :
  In c (collapse_ws b l) -> c = 32 \/ (In c l /\ is_space c = false).
Proof.
  revert b. induction l as [|x r IH]; intros b; simpl; [tauto|].
  destruct (is_space x) eqn:E; [destruct b|]; simpl.
  - intros H. destruct (IH _ H) as [H1 | [H1 H2]]; auto.
  - intros [H | H]; [left; auto|]. destruct (IH _ H) as [H1 | [H1 H2]]; auto.
  - intros [H | H]; [subst; right; auto|]. destruct (IH _ H) as [H1 | [H1 H2]]; auto.
Qed.

Lemma collapse_run_first_ok (l : ustr) : first_ok (collapse_ws true l) = true.
Proof.
  induction l as [|x r IH]; simpl; [reflexivity|].
  destruct (is_space x) eqn:E; [exact IH | simpl; rewrite E; reflexivity].
Qed.

Lemma collapse_no_adj (b : bool) (l : ustr) : no_adj (collapse_ws b l) = true.
Proof.
  revert b. induction l as [|x r IH]; intros b; simpl; [reflexivity|].
  destruct (is_space x) eqn:E; [destruct b; [apply IH|]|].
  - pose proof (collapse_run_first_ok r) as Hf.
    destruct (collapse_ws true r) as [|y r'] eqn:Ec; [reflexivity|].
    simpl in Hf. apply negb_true_iff in Hf.
    change (negb (is_space 32 && is_space y) && no_adj (y :: r') = true).
    rewrite Hf, andb_false_r, <- Ec. exact (IH true).
  - specialize (IH false).
    destruct (collapse_ws false r) as [|y r'] eqn:Ec; [reflexivity|].
    cbn [no_adj]. rewrite E. simpl. exact IH.
Qed.

Lemma collapse_first_ok (l : ustr) : first_ok l = true -> first_ok (collapse_ws false l) = true.
Proof.
  destruct l as [|x r]; simpl; [reflexivity|].
  intros H. apply negb_true_iff in H. rewrite H. simpl. rewrite H. reflexivity.
Qed.

Lemma collapse_snoc (b : bool) (p : ustr) (c : Z) :
  is_space c = false -> collapse_ws b (p ++ [c]) = collapse_ws b p ++ [c].
Proof.
  intros Hc. revert b. induction p as [|x r IH]; intros b; simpl.
  - rewrite Hc. reflexivity.
  - destruct (is_space x); [destruct b|]; simpl; rewrite ?IH; reflexivity.
Qed.

Lemma collapse_last_ok (b : bool) (l : ustr) : last_ok l = true -> last_ok (collapse_ws b l) = true.
Proof.
  unfold last_ok. intros H.
  destruct (rev l) as [|c r] eqn:E.
  - apply (f_equal (@rev Z)) in E. rewrite rev_involutive in E. subst. reflexivity.
  - simpl in H. apply negb_true_iff in H.
    apply (f_equal (@rev Z)) in E. rewrite rev_involutive in E. simpl in E. subst l.
    rewrite collapse_snoc by exact H. rewrite rev_app_distr. simpl. rewrite H. reflexivity.
Qed.

Lemma remove_chars_id (cs : list Z) (l : ustr) :
  (forall c, In c l -> mem_Z c cs = false) -> remove_chars cs l = l.
Proof.
  induction l as [|x r IH]; intros H; simpl; [reflexivity|].
  rewrite (H x (or_introl eq_refl)). simpl. f_equal. apply IH. intros c Hc. apply H. right. exact Hc.
Qed.

Lemma in_remove_chars (cs : list Z) (l : ustr) (c : Z) :
  In c (remove_chars cs l) -> In c l /\ mem_Z c cs = false.
Proof.
  unfold remove_chars. intros H. apply filter_In in H as [H1 H2].
  apply negb_true_iff in H2. auto.
Qed.

(** Every character [normalize_title] keeps comes from the lower-cased
    title or is a space. *)
Lemma normalize_chars (s : ustr) (c : Z) :
  In c (normalize_title s) ->
  mem_Z c quote_chars = false /\ mem_Z c bracket_chars = false
  /\ (c = 32 \/ (In c (lower s) /\ is_space c = false)).
Proof.
  unfold normalize_title. intros H.
  apply in_remove_chars in H as [H Hb]. apply in_remove_chars in H as [H Hq].
  split; [exact Hq|]. split; [exact Hb|].
  destruct (collapse_incl _ _ _ H) as [H1 | [H1 H2]]; [left; exact H1|].
  right. split; [apply strip_incl; exact H1 | exact H2].
Qed.

(** C8 (as the code does it): [normalize_title] lower-cases, strips,
    collapses whitespace runs to one space and only then deletes the quote
    characters U+201C, U+201D, the straight double quote, the apostrophe,
    U+2019, the backtick and the brackets [ ] ( ) { }. Its result contains
    none of these characters, is unchanged by [str.lower] and has no
    whitespace other than plain spaces; when the title contains none of the
    deleted characters the result has no leading, trailing or doubled
    whitespace. Two inputs fall outside the specified behaviour:
    "BTC (update )" normalizes to "btc update ", with a trailing space, and
    the left single quotation mark U+2018 is kept although its partner
    U+2019 is deleted. *)
Theorem normalize_title_shape (s : ustr) :
  (forall c, In c (normalize_title s) ->
     mem_Z c quote_chars = false /\ mem_Z c bracket_chars = false
     /\ (is_space c = true -> c = 32))
  /\ lower (normalize_title s) = normalize_title s
  /\ (forallb (fun c => negb (removed c)) s = true -> ws_clean (normalize_title s) = true)
  /\ normalize_title (u "BTC (update )") = u "btc update "
  /\ last_ok (normalize_title (u "BTC (update )")) = false
  /\ normalize_title ([8216] ++ u "Hack" ++ [8217]) = [8216] ++ u "hack".
Proof.
  split; [|split; [|split; [|split; [vm_compute; reflexivity | split; vm_compute; reflexivity]]]].
  - intros c Hc. destruct (normalize_chars s c Hc) as [Hq [Hb Hc']].
    split; [exact Hq|]. split; [exact Hb|].
    destruct Hc' as [H32 | [_ Hsp]]; [intros _; exact H32 | congruence].
  - unfold lower. apply lower_go_fixed. apply forallb_forall. intros c Hc.
    destruct (normalize_chars s c Hc) as [_ [_ [H32 | [Hin _]]]]; [subst; vm_compute; reflexivity|].
    destruct (lower_go_out _ _ _ Hin) as [c0 [_ [H _]]]. exact H.
  - intros Hs.
    assert (Hkeep : forall c, In c (collapse_ws false (strip (lower s))) -> removed c = false).
    { intros c Hc. destruct (collapse_incl _ _ _ Hc) as [H32 | [Hin _]]; [subst; reflexivity|].
      apply strip_incl in Hin. destruct (lower_go_out _ _ _ Hin) as [c0 [Hc0 [_ [_ Hr]]]].
      apply Hr. rewrite forallb_forall in Hs. apply negb_true_iff. apply Hs. exact Hc0. }
    unfold normalize_title.
    rewrite (remove_chars_id quote_chars);
      [| intros c Hc; specialize (Hkeep c Hc); unfold removed in Hkeep;
         apply orb_false_iff in Hkeep; apply Hkeep].
    rewrite (remove_chars_id bracket_chars);
      [| intros c Hc; specialize (Hkeep c Hc); unfold removed in Hkeep;
         apply orb_false_iff in Hkeep; apply Hkeep].
    destruct (strip_ws (lower s)) as [Hf Hl].
    unfold ws_clean. rewrite (collapse_first_ok _ Hf), (collapse_last_ok _ _ Hl), collapse_no_adj.
    reflexivity.
Qed.

(** ** Configuration errors *)

Lemma map_result_raise {A B} (f : A -> result B) (l : list A) (a : A) (e : exn) :
  In a l -> f a = Raise e -> exists e', map_result f l = Raise e'.
Proof.
  induction l as [|x r IH]; intros Hin Hf; [destruct Hin|].
  simpl. destruct Hin as [-> | Hin].
  - rewrite Hf. exists e. reflexivity.
  - destruct (f x) as [b|e0]; simpl; [|exists e0; reflexivity].
    destruct (IH Hin Hf) as [e' He']. rewrite He'. exists e'. reflexivity.
Qed.

Lemma load_source_missing (fos : ustr -> option Q) (skv : list (yaml * yaml)) (k : string) :
  In k ["id"; "name"; "url"; "lang"; "kind"] -> lookup_key k skv = None ->
  exists e, load_source fos (YMap skv) = Raise e.
Proof.
  intros Hk Hmiss.
  unfold load_source, py_getitem, bind.
  destruct Hk as [<- | [<- | [<- | [<- | [<- | []]]]]]; rewrite Hmiss;
    repeat match goal with
           | |- context [match lookup_key ?k' skv with _ => _ end] => destruct (lookup_key k' skv)
           end; eexists; reflexivity.
Qed.

Lemma main_run_no_sources feed parse fos doc tz now wh :
  in_range (now + tz now - wh * 3600) = true ->
  load_sources fos doc = Ok [] ->
  main_run feed parse fos doc tz now wh = ([], Ok (([], [], []), ([], [], []))).
Proof.
  intros Hw H. unfold main_run, add_seconds.
  replace (now + tz now + - (wh * 3600)) with (now + tz now - wh * 3600) by lia.
  rewrite Hw, H. reflexivity.
Qed.

(** C9 (as the code does it): a source entry that is a mapping missing one
    of id, name, url, lang, kind makes [load_sources] raise, so the run ends
    with that exception before any feed is fetched; a configuration that
    defines no sources (a falsy document, a mapping without [sources], or an
    empty [sources] list) is no error: as long as the window start
    [now - timedelta(hours=window_hours)] is a valid [datetime], nothing is
    fetched and every section is empty. Outside that range [main] raises
    [OverflowError] before it reads the configuration. *)
Theorem config_errors_abort_before_fetch
    (feed : yaml -> list RawEntry) (parse : ustr -> option datetime)
    (fos : ustr -> option Q) (tz : Z -> Z) (now wh : Z) :
  (forall kvs ss skv k,
     kvs <> [] -> lookup_key "sources" kvs = Some (YSeq ss) -> In (YMap skv) ss ->
     In k ["id"; "name"; "url"; "lang"; "kind"] -> lookup_key k skv = None ->
     exists e, main_run feed parse fos (YMap kvs) tz now wh = ([], Raise e))
  /\ (forall doc,
       truthy doc = false
       \/ (exists kvs, doc = YMap kvs
                       /\ (lookup_key "sources" kvs = None \/ lookup_key "sources" kvs = Some (YSeq []))) ->
       in_range (now + tz now - wh * 3600) = true ->
       main_run feed parse fos doc tz now wh = ([], Ok (([], [], []), ([], [], []))))
  /\ (forall doc, in_range (now + tz now - wh * 3600) = false ->
       main_run feed parse fos doc tz now wh = ([], Raise OverflowError)).
Proof.
  split; [|split].
  - intros kvs ss skv k Hne Hs Hin Hk Hmiss.
    destruct (load_source_missing fos skv k Hk Hmiss) as [e He].
    destruct (map_result_raise (load_source fos) ss _ e Hin He) as [e' He'].
    unfold main_run. destruct (add_seconds (now + tz now) (- (wh * 3600))) as [w0|e0];
      [|exists e0; reflexivity].
    exists e'.
    replace (load_sources fos (YMap kvs)) with (@Raise (list SourceCfg) e'); [reflexivity|].
    unfold load_sources.
    replace (truthy (YMap kvs)) with true
      by (destruct kvs; [congruence | reflexivity]).
    simpl. unfold py_get. rewrite Hs. simpl. rewrite He'. reflexivity.
  - intros doc Hdoc Hw. apply main_run_no_sources; [exact Hw|].
    unfold load_sources.
    destruct Hdoc as [Hf | [kvs [-> [Hl | Hl]]]].
    + rewrite Hf. reflexivity.
    + destruct (truthy (YMap kvs)); simpl; [rewrite Hl|]; reflexivity.
    + destruct (truthy (YMap kvs)) eqn:Et; simpl; [rewrite Hl; reflexivity|].
      destruct kvs; [reflexivity | discriminate].
  - intros doc Hw. unfold main_run, add_seconds.
    replace (now + tz now + - (wh * 3600)) with (now + tz now - wh * 3600) by lia.
    rewrite Hw. reflexivity.
Qed.

(** C9 fails as stated: a configuration whose [sources] list is empty is
    not a fatal error; the run completes with empty sections. *)
Lemma empty_sources_not_fatal_counterexample :
  main_run (fun _ => []) (fun _ => None) (fun _ => None)
    (YMap [(YStr (u "sources"), YSeq [])]) sg_tz sample_now 4
  = ([], Ok (([], [], []), ([], [], [])))
  /\ main_run (fun _ => []) (fun _ => None) (fun _ => None) YNull sg_tz sample_now 4
     = ([], Ok (([], [], []), ([], [], []))).
Proof. split; vm_compute; reflexivity. Qed.

(** ** Ingestion *)

(** C10: [fetch_items] only looks at the first 80 entries of each feed: two
    feeds that agree on their first 80 entries give the same fetched URLs and
    the same items (or the same exception), whatever follows. *)
Theorem fetch_items_first_80 (feed feed' : yaml -> list RawEntry)
    (parse : ustr -> option datetime) (sources : list SourceCfg) (tz : Z -> Z)
    (win_start win_end : Z)
    (Hagree : forall url, firstn 80 (feed url) = firstn 80 (feed' url)) :
  fetch_items feed parse sources tz win_start win_end
  = fetch_items feed' parse sources tz win_start win_end.
Proof.
  induction sources as [|src r IH]; cbn [fetch_items]; [reflexivity|].
  rewrite Hagree, IH. reflexivity.
Qed.

Lemma fetch_items_first_80_witness :
  (forall url, firstn 80 ((fun _ : yaml => repeat late_entry 81) url)
               = firstn 80 ((fun _ : yaml => repeat late_entry 80) url))
  /\ fetch_items (fun _ => repeat late_entry 81) late_parse [] sg_tz 0 0
     = fetch_items (fun _ => repeat late_entry 80) late_parse [] sg_tz 0 0.
Proof.
  assert (H : forall url, firstn 80 ((fun _ : yaml => repeat late_entry 81) url)
                          = firstn 80 ((fun _ : yaml => repeat late_entry 80) url))
    by (intros; reflexivity).
  split; [exact H|].
  exact (fetch_items_first_80 _ _ late_parse [] sg_tz 0 0 H).
Defined.

(** ** Window filter *)

Lemma ustr_eqb_nil (s : ustr) : s <> [] -> ustr_eqb s [] = false.
Proof. intros H. destruct (ustr_eqb s []) eqn:E; [apply ustr_eqb_true in E; congruence | reflexivity]. Qed.

(** C6 as the code does it, and where it breaks: an entry with no parseable
    timestamp is dropped; when the conversion to the reference zone stays in
    the [datetime] range the entry (with a title and a link) is kept exactly
    when [start <= t <= end]; but a timestamp near the end of the range,
    9999-12-31T23:00:00Z, converted to UTC+08:00 passes [datetime.max], and
    the [OverflowError] of [astimezone] ends the whole run instead of the
    entry being excluded. *)
Theorem window_filter_overflow :
  (forall parse tz ws we src e,
     safe_parse_dt parse e = None -> entry_item parse tz ws we src e = Ok None)
  /\ (forall parse tz ws we src e dt utc loc,
        safe_parse_dt parse e = Some dt ->
        astimezone tz (dt_wall dt) (match dt_off dt with Some o => o | None => 0 end) = Ok (utc, loc) ->
        attr_str (e_title e) <> [] -> attr_str (e_link e) <> [] ->
        ((exists it, entry_item parse tz ws we src e = Ok (Some it)) <-> (ws <= utc <= we)))
  /\ sample_now < 3652058 * 86400 + 23 * 3600
  /\ main_run (fun _ => [late_entry]) late_parse (fun _ => None) sample_config sg_tz sample_now 4
     = ([YStr (u "https://feed.example/rss")], Raise OverflowError).
Proof.
  split; [|split; [|split]].
  - intros parse tz ws we src e H. unfold entry_item. rewrite H. reflexivity.
  - intros parse tz ws we src e dt utc loc Hp Ha Ht Hl.
    unfold entry_item. rewrite Hp. cbn [bind]. rewrite Ha. cbn [bind].
    rewrite (ustr_eqb_nil _ Ht), (ustr_eqb_nil _ Hl). simpl orb.
    destruct ((ws <=? utc) && (utc <=? we)) eqn:E; simpl negb; cbv iota.
    + apply andb_true_iff in E as [E1 E2]. apply Z.leb_le in E1, E2.
      split; [intros _; lia | intros _; eexists; reflexivity].
    + split; [intros [it Hit]; discriminate|].
      intros [H1 H2]. apply Z.leb_le in H1, H2. rewrite H1, H2 in E. discriminate.
  - unfold sample_now. lia.
  - vm_compute. reflexivity.
Qed.

(** ** Rendering: escaping *)


(** ** Replacement and escaping *)

Lemma replace_single (c : Z) (new s : ustr) :
  py_replace [c] new s = flat_map (fun x => if x =? c then new else [x]) s.
Proof.
  unfold py_replace. induction s as [|x r IH]; [reflexivity|].
  cbn [replace_from is_prefix flat_map List.length pred].
  rewrite andb_true_r, IH. rewrite (Z.eqb_sym c x). destruct (x =? c); reflexivity.
Qed.

Lemma flat_map_flat_map {A B C} (f : A -> list B) (g : B -> list C) (l : list A) :
  flat_map g (flat_map f l) = flat_map (fun x => flat_map g (f x)) l.
Proof.
  induction l as [|x r IH]; [reflexivity|].
  cbn [flat_map]. rewrite flat_map_app, IH. reflexivity.
Qed.

Lemma html_escape_flat (s : ustr) : html_escape s = flat_map esc s.
Proof.
  unfold html_escape. change (u ">") with [62]. change (u "<") with [60].
  change (u "&") with [38]. rewrite !replace_single, !flat_map_flat_map.
  apply flat_map_ext. intro x. unfold esc.
  destruct (Z.eqb_spec x 38); [subst; reflexivity|].
  destruct (Z.eqb_spec x 60); [subst; reflexivity|].
  destruct (Z.eqb_spec x 62); [subst; reflexivity|].
  cbn [flat_map]. 
  replace (x =? 38) with false by (symmetry; apply Z.eqb_neq; auto).
  cbn [flat_map]. replace (x =? 60) with false by (symmetry; apply Z.eqb_neq; auto).
  cbn [flat_map]. replace (x =? 62) with false by (symmetry; apply Z.eqb_neq; auto).
  reflexivity.
Qed.

Lemma esc_cases (x : Z) :
  (esc x = [x] /\ x <> 38 /\ x <> 60 /\ x <> 62)
  \/ (x = 38 /\ esc x = u "&amp;") \/ (x = 60 /\ esc x = u "&lt;") \/ (x = 62 /\ esc x = u "&gt;").
Proof.
  unfold esc.
  destruct (Z.eqb_spec x 38); [right; left; auto|].
  destruct (Z.eqb_spec x 60); [right; right; left; auto|].
  destruct (Z.eqb_spec x 62); [right; right; right; auto|].
  left; auto.
Qed.

(** The escaping of [render_section] and [render_all_rows] leaves no [<]
    and no [>] in a title or link. *)
Theorem html_escape_no_tag_chars (s : ustr) :
  ~ In 60 (html_escape s) /\ ~ In 62 (html_escape s).
Proof.
  rewrite html_escape_flat.
  split; intro H; apply in_flat_map in H as [x [_ Hx]];
  destruct (esc_cases x) as [[E [? [? ?]]] | [[? E] | [[? E] | [? E]]]]; rewrite E in Hx;
  simpl in Hx; intuition lia.
Qed.

(** The escaping loses nothing: distinct titles or links stay distinct. *)
Theorem html_escape_injective (s1 s2 : ustr) :
  html_escape s1 = html_escape s2 -> s1 = s2.
Proof.
  rewrite !html_escape_flat. revert s2.
  induction s1 as [|x r IH]; intros [|y r2] H; cbn [flat_map] in H.
  - reflexivity.
  - destruct (esc_cases y) as [[E _] | [[_ E] | [[_ E] | [_ E]]]]; rewrite E in H; discriminate.
  - destruct (esc_cases x) as [[E _] | [[_ E] | [[_ E] | [_ E]]]]; rewrite E in H; discriminate.
  - destruct (esc_cases x) as [[Ex [? [? ?]]] | [[? Ex] | [[? Ex] | [? Ex]]]];
    destruct (esc_cases y) as [[Ey [? [? ?]]] | [[? Ey] | [[? Ey] | [? Ey]]]];
    rewrite Ex, Ey in H; cbn in H; injection H; intros; subst;
    try lia; f_equal; apply IH; assumption.
Qed.

Lemma html_escape_injective_witness : u "a<b" = u "a<b".
Proof. apply (html_escape_injective (u "a<b") (u "a<b")). reflexivity. Defined.

(** A string without [&], [<] and [>] is left unchanged by the escaping. *)
Theorem html_escape_plain (s : ustr) :
  ~ In 38 s -> ~ In 60 s -> ~ In 62 s -> html_escape s = s.
Proof.
  intros H1 H2 H3. rewrite html_escape_flat.
  induction s as [|x r IH]; [reflexivity|].
  cbn [flat_map].
  destruct (esc_cases x) as [[E _] | [[? _] | [[? _] | [? _]]]]; subst;
  [| exfalso; apply H1; now left | exfalso; apply H2; now left | exfalso; apply H3; now left].
  rewrite E, IH; [reflexivity | intro; apply H1; now right | intro; apply H2; now right | intro; apply H3; now right].
Qed.

Lemma html_escape_plain_witness : html_escape (u "BTC up 5%") = u "BTC up 5%".
Proof. apply html_escape_plain; vm_compute; intuition discriminate. Defined.

(** ** Rendering: the page template *)


Lemma compat_false (o s b : ustr) : compat o s = false -> is_prefix o (s ++ b) = false.
Proof.
  revert s. induction o as [|x o IH]; intros [|y s] H; try discriminate.
  cbn [compat] in H. cbn [app is_prefix].
  apply andb_false_iff in H as [H|H]; [rewrite H; reflexivity|].
  rewrite IH by exact H. apply andb_false_r.
Qed.

Lemma replace_clean (old new a b : ustr) :
  starts_inside old a = false ->
  replace_from old new O (a ++ b) = a ++ replace_from old new O (b).
Proof.
  induction a as [|x r IH]; intro H; [reflexivity|].
  cbn [starts_inside] in H. apply orb_false_iff in H as [H1 H2].
  pose proof (compat_false old (x :: r) b H1) as E. cbn [app] in E |- *.
  cbn [replace_from]. rewrite E, IH by exact H2. reflexivity.
Qed.

Lemma replace_clean_all (old new a : ustr) :
  starts_inside old a = false -> replace_from old new O a = a.
Proof.
  intro H. rewrite <- (app_nil_r a) at 1. rewrite replace_clean by exact H.
  rewrite app_nil_r. destruct a; reflexivity.
Qed.

Lemma replace_skip (old new a b : ustr) :
  replace_from old new (List.length a) (a ++ b) = replace_from old new O b.
Proof. induction a as [|x r IH]; [reflexivity|]. exact IH. Qed.

Lemma is_prefix_self (o b : ustr) : is_prefix o (o ++ b) = true.
Proof. induction o as [|x o IH]; [reflexivity|]. cbn. rewrite Z.eqb_refl. exact IH. Qed.

Lemma replace_hit (old new b : ustr) :
  old <> [] -> replace_from old new O (old ++ b) = new ++ replace_from old new O b.
Proof.
  destruct old as [|x o]; [contradiction|]. intros _.
  pose proof (is_prefix_self (x :: o) b) as E. cbn [app] in E |- *.
  cbn [replace_from]. rewrite E. cbn [List.length pred]. rewrite replace_skip. reflexivity.
Qed.

Lemma no_pct_clean (o a : ustr) : ~ In 37 a -> starts_inside (37 :: o) a = false.
Proof.
  induction a as [|x r IH]; intro H; [reflexivity|].
  cbn [starts_inside compat]. rewrite IH by (intro; apply H; now right).
  destruct (Z.eqb_spec 37 x); [subst; exfalso; apply H; now left|]. reflexivity.
Qed.

Lemma py_replace_ne (old new s : ustr) : old <> [] -> py_replace old new s = replace_from old new O s.
Proof. destruct old; [contradiction | reflexivity]. Qed.

Lemma tpl_split :
  tpl = tpl_0 ++ u "%%NOW%%" ++ tpl_1 ++ u "%%WIN_START%%" ++ tpl_2 ++ u "%%WIN_END%%"
        ++ tpl_3 ++ u "%%EN_HTML%%" ++ tpl_4 ++ u "%%ZH_HTML%%" ++ tpl_5.
Proof. vm_compute. reflexivity. Qed.

Ltac clean_closed := vm_compute; reflexivity.

Lemma html_page_zh_step (now_sgt win_start win_end en_html zh_html : ustr) :
  ~ In 37 now_sgt -> ~ In 37 win_start -> ~ In 37 win_end ->
  html_page now_sgt win_start win_end en_html zh_html
  = replace_from (u "%%ZH_HTML%%") zh_html O
      (tpl_0 ++ now_sgt ++ tpl_1 ++ win_start ++ tpl_2 ++ win_end ++ tpl_3 ++ en_html
       ++ tpl_4 ++ u "%%ZH_HTML%%" ++ tpl_5).
Proof.
  intros Hn Hs He. unfold html_page. rewrite tpl_split.
  rewrite !py_replace_ne by (cbv; discriminate).
  set (P1 := u "%%NOW%%"). set (P2 := u "%%WIN_START%%"). set (P3 := u "%%WIN_END%%").
  set (P4 := u "%%EN_HTML%%").
  rewrite (replace_clean P1 now_sgt tpl_0) by clean_closed.
  rewrite replace_hit by (cbv; discriminate).
  rewrite (replace_clean_all P1 now_sgt) by clean_closed.
  rewrite (replace_clean P2 win_start tpl_0) by clean_closed.
  rewrite (replace_clean P2 win_start now_sgt) by (apply no_pct_clean; exact Hn).
  rewrite (replace_clean P2 win_start tpl_1) by clean_closed.
  rewrite replace_hit by (cbv; discriminate).
  rewrite (replace_clean_all P2 win_start) by clean_closed.
  rewrite (replace_clean P3 win_end tpl_0) by clean_closed.
  rewrite (replace_clean P3 win_end now_sgt) by (apply no_pct_clean; exact Hn).
  rewrite (replace_clean P3 win_end tpl_1) by clean_closed.
  rewrite (replace_clean P3 win_end win_start) by (apply no_pct_clean; exact Hs).
  rewrite (replace_clean P3 win_end tpl_2) by clean_closed.
  rewrite replace_hit by (cbv; discriminate).
  rewrite (replace_clean_all P3 win_end) by clean_closed.
  rewrite (replace_clean P4 en_html tpl_0) by clean_closed.
  rewrite (replace_clean P4 en_html now_sgt) by (apply no_pct_clean; exact Hn).
  rewrite (replace_clean P4 en_html tpl_1) by clean_closed.
  rewrite (replace_clean P4 en_html win_start) by (apply no_pct_clean; exact Hs).
  rewrite (replace_clean P4 en_html tpl_2) by clean_closed.
  rewrite (replace_clean P4 en_html win_end) by (apply no_pct_clean; exact He).
  rewrite (replace_clean P4 en_html tpl_3) by clean_closed.
  rewrite replace_hit by (cbv; discriminate).
  rewrite (replace_clean_all P4 en_html) by clean_closed.
  reflexivity.
Qed.

(** Placeholder substitution of [html_page] with values free of [%]. *)
(** When no value contains [%], [html_page] fills the five placeholders of
    its template with the five values, each once, in template order. *)
Theorem html_page_fills (now_sgt win_start win_end en_html zh_html : ustr) :
  ~ In 37 now_sgt -> ~ In 37 win_start -> ~ In 37 win_end -> ~ In 37 en_html -> ~ In 37 zh_html ->
  html_page now_sgt win_start win_end en_html zh_html
  = tpl_0 ++ now_sgt ++ tpl_1 ++ win_start ++ tpl_2 ++ win_end ++ tpl_3 ++ en_html
    ++ tpl_4 ++ zh_html ++ tpl_5.
Proof.
  intros Hn Hs He Hen Hzh. rewrite html_page_zh_step by assumption.
  set (P5 := u "%%ZH_HTML%%").
  rewrite (replace_clean P5 zh_html tpl_0) by clean_closed.
  rewrite (replace_clean P5 zh_html now_sgt) by (apply no_pct_clean; exact Hn).
  rewrite (replace_clean P5 zh_html tpl_1) by clean_closed.
  rewrite (replace_clean P5 zh_html win_start) by (apply no_pct_clean; exact Hs).
  rewrite (replace_clean P5 zh_html tpl_2) by clean_closed.
  rewrite (replace_clean P5 zh_html win_end) by (apply no_pct_clean; exact He).
  rewrite (replace_clean P5 zh_html tpl_3) by clean_closed.
  rewrite (replace_clean P5 zh_html en_html) by (apply no_pct_clean; exact Hen).
  rewrite (replace_clean P5 zh_html tpl_4) by clean_closed.
  rewrite replace_hit by (cbv; discriminate).
  rewrite (replace_clean_all P5 zh_html) by clean_closed.
  reflexivity.
Qed.

Lemma html_page_fills_witness :
  html_page (u "2025-01-01 08:00:00") (u "04:00") (u "08:00") (u "EN") (u "ZH")
  = tpl_0 ++ u "2025-01-01 08:00:00" ++ tpl_1 ++ u "04:00" ++ tpl_2 ++ u "08:00" ++ tpl_3
    ++ u "EN" ++ tpl_4 ++ u "ZH" ++ tpl_5.
Proof. apply html_page_fills; vm_compute; intuition discriminate. Defined.

(** The placeholders are replaced one after the other: a [%%ZH_HTML%%] inside
    the English HTML (an escaped title keeps it) receives the Chinese HTML
    too. *)
Theorem html_page_zh_injection (now_sgt win_start win_end e1 e2 zh_html : ustr) :
  ~ In 37 now_sgt -> ~ In 37 win_start -> ~ In 37 win_end -> ~ In 37 e1 -> ~ In 37 e2 ->
  html_page now_sgt win_start win_end (e1 ++ u "%%ZH_HTML%%" ++ e2) zh_html
  = tpl_0 ++ now_sgt ++ tpl_1 ++ win_start ++ tpl_2 ++ win_end ++ tpl_3
    ++ e1 ++ zh_html ++ e2 ++ tpl_4 ++ zh_html ++ tpl_5.
Proof.
  intros Hn Hs He H1 H2. rewrite html_page_zh_step by assumption.
  set (P5 := u "%%ZH_HTML%%").
  rewrite (replace_clean P5 zh_html tpl_0) by clean_closed.
  rewrite (replace_clean P5 zh_html now_sgt) by (apply no_pct_clean; exact Hn).
  rewrite (replace_clean P5 zh_html tpl_1) by clean_closed.
  rewrite (replace_clean P5 zh_html win_start) by (apply no_pct_clean; exact Hs).
  rewrite (replace_clean P5 zh_html tpl_2) by clean_closed.
  rewrite (replace_clean P5 zh_html win_end) by (apply no_pct_clean; exact He).
  rewrite (replace_clean P5 zh_html tpl_3) by clean_closed.
  rewrite <- !app_assoc.
  rewrite (replace_clean P5 zh_html e1) by (apply no_pct_clean; exact H1).
  rewrite replace_hit by (cbv; discriminate).
  rewrite (replace_clean P5 zh_html e2) by (apply no_pct_clean; exact H2).
  rewrite (replace_clean P5 zh_html tpl_4) by clean_closed.
  rewrite replace_hit by (cbv; discriminate).
  rewrite (replace_clean_all P5 zh_html) by clean_closed.
  reflexivity.
Qed.

Lemma html_page_zh_injection_witness :
  html_page (u "2025-01-01 08:00:00") (u "04:00") (u "08:00")
    (u "<a>" ++ u "%%ZH_HTML%%" ++ u "</a>") (u "ZH")
  = tpl_0 ++ u "2025-01-01 08:00:00" ++ tpl_1 ++ u "04:00" ++ tpl_2 ++ u "08:00" ++ tpl_3
    ++ u "<a>" ++ u "ZH" ++ u "</a>" ++ tpl_4 ++ u "ZH" ++ tpl_5.
Proof. apply html_page_zh_injection; vm_compute; intuition discriminate. Defined.

(** ** Site URLs *)


Lemma lstrip_slash_head (s : ustr) : starts_slash (lstrip_slash s) = false.
Proof.
  induction s as [|c r IH]; [reflexivity|]. cbn [lstrip_slash].
  destruct (Z.eqb_spec c 47); [exact IH|]. cbn. apply Z.eqb_neq. exact n.
Qed.

Lemma rstrip_slash_snoc (b : ustr) : rstrip_slash (b ++ [47]) = rstrip_slash b.
Proof. unfold rstrip_slash. rewrite rev_app_distr. reflexivity. Qed.

Lemma lstrip_slash_split (s : ustr) : exists j, s = repeat 47 j ++ lstrip_slash s.
Proof.
  induction s as [|c r [j IH]]; [exists 0%nat; reflexivity|]. cbn [lstrip_slash].
  destruct (Z.eqb_spec c 47) as [->|_]; [exists (S j); cbn; f_equal; exact IH | exists 0%nat; reflexivity].
Qed.

Lemma rstrip_slash_split (s : ustr) : exists k, s = rstrip_slash s ++ repeat 47 k.
Proof.
  destruct (lstrip_slash_split (rev s)) as [k H]. exists k.
  apply (f_equal (@rev Z)) in H. rewrite rev_involutive, rev_app_distr, rev_repeat in H. exact H.
Qed.

(** [url_join] ignores trailing slashes of the base and leading slashes of
    the path, and puts exactly one slash between them: the base is [pre]
    followed by slashes and the path is slashes followed by [rest], with no
    slash at the end of [pre] nor at the start of [rest], and the result is
    [pre ++ "/" ++ rest] (so "/" followed by the path when the base is empty
    or only slashes). *)
Theorem url_join_one_slash (base path : ustr) :
  url_join (base ++ [47]) path = url_join base path
  /\ url_join base (47 :: path) = url_join base path
  /\ exists pre k j rest,
       base = pre ++ repeat 47 k /\ starts_slash (rev pre) = false
       /\ path = repeat 47 j ++ rest /\ starts_slash rest = false
       /\ url_join base path = pre ++ 47 :: rest.
Proof.
  split; [unfold url_join; rewrite rstrip_slash_snoc; reflexivity|].
  split; [reflexivity|].
  destruct (rstrip_slash_split base) as [k Hb]. destruct (lstrip_slash_split path) as [j Hp].
  exists (rstrip_slash base), k, j, (lstrip_slash path).
  split; [exact Hb|]. split; [unfold rstrip_slash; rewrite rev_involutive; apply lstrip_slash_head|].
  split; [exact Hp|]. split; [apply lstrip_slash_head|].
  unfold url_join. destruct (rstrip_slash base); reflexivity.
Qed.

Lemma lstrip_slash_snoc (x : ustr) :
  lstrip_slash (x ++ [47]) = [] \/ exists y, lstrip_slash (x ++ [47]) = y ++ [47].
Proof.
  induction x as [|c r IH]; [left; reflexivity|]. cbn [app lstrip_slash].
  destruct (c =? 47); [exact IH|]. right. exists (c :: r). reflexivity.
Qed.

Lemma lstrip_slash_id (s : ustr) : starts_slash s = false -> lstrip_slash s = s.
Proof. destruct s as [|c r]; [reflexivity|]. cbn. intro H. rewrite H. reflexivity. Qed.

Lemma after_first_slash_app (o r : ustr) : ~ In 47 o -> after_first_slash (o ++ 47 :: r) = r.
Proof.
  induction o as [|c o IH]; intro H; [reflexivity|].
  cbn [app after_first_slash]. destruct (Z.eqb_spec c 47); [exfalso; apply H; left; auto|].
  apply IH. intro; apply H; now right.
Qed.

Lemma mem_Z_In (c : Z) (l : list Z) : mem_Z c l = true <-> In c l.
Proof.
  unfold mem_Z. rewrite existsb_exists. split.
  - intros [x [Hx E]]. apply Z.eqb_eq in E. subst. exact Hx.
  - intro H. exists c. split; [exact H | apply Z.eqb_refl].
Qed.

(** The base URL of the full listing always ends in [/all] and is either
    [/all] or starts with a slash; for [GITHUB_REPOSITORY=owner/repo] it is
    [/repo/all]. *)
Theorem all_base_shape (env : option ustr) :
  (exists mid, url_join (detect_site_base env) (u "all") = mid ++ u "/all"
               /\ (mid = [] \/ exists m, mid = 47 :: m))
  /\ (forall owner repo, env = Some (owner ++ 47 :: repo) ->
        strip (owner ++ 47 :: repo) = owner ++ 47 :: repo -> ~ In 47 owner ->
        repo <> [] -> starts_slash (rev repo) = false ->
        url_join (detect_site_base env) (u "all") = 47 :: repo ++ u "/all").
Proof.
  split.
  - unfold detect_site_base.
    destruct (mem_Z 47 _).
    + unfold url_join, rstrip_slash. cbn [rev].
      destruct (lstrip_slash_snoc (rev (after_first_slash (strip match env with Some s => s | None => [] end)))) as [E | [y E]];
      rewrite E.
      * exists []. split; [reflexivity | left; reflexivity].
      * rewrite rev_app_distr. cbn [rev app].
        exists (47 :: rev y). split; [reflexivity | right; eexists; reflexivity].
    + exists []. split; [reflexivity | left; reflexivity].
  - intros owner repo -> Hs Ho Hr Hl.
    unfold detect_site_base. rewrite Hs.
    replace (mem_Z 47 (owner ++ 47 :: repo)) with true
      by (symmetry; apply mem_Z_In, in_or_app; right; left; reflexivity).
    rewrite after_first_slash_app by exact Ho.
    unfold url_join, rstrip_slash. cbn [rev].
    assert (Hne : rev repo <> []) by (intro E; apply Hr; rewrite <- (rev_involutive repo), E; reflexivity).
    rewrite lstrip_slash_id by (destruct (rev repo); [contradiction | exact Hl]).
    rewrite rev_app_distr, rev_involutive. reflexivity.
Qed.

Lemma all_base_shape_witness :
  url_join (detect_site_base (Some (u "LaberMann/voiceofcrypto"))) (u "all")
  = 47 :: u "voiceofcrypto" ++ u "/all".
Proof.
  apply (proj2 (all_base_shape (Some (u "LaberMann/voiceofcrypto"))) (u "LaberMann") (u "voiceofcrypto"));
  vm_compute; try reflexivity; try discriminate; intuition discriminate.
Defined.

(** ** The full listing *)

Lemma ustr_trich (a b : ustr) : ustr_ltb a b = true \/ a = b \/ ustr_ltb b a = true.
Proof.
  destruct (ustr_ltb a b) eqn:E1; [left; reflexivity|].
  destruct (ustr_ltb b a) eqn:E2; [right; right; reflexivity|].
  right; left. apply ustr_ltb_total; assumption.
Qed.

Lemma all_key_lt_iff (a b : Item) :
  all_key_lt a b = true <->
  (ustr_ltb (published_sgt a) (published_sgt b) = true
   \/ (published_sgt a = published_sgt b /\ (score a < score b)%Q)).
Proof.
  unfold all_key_lt. rewrite orb_true_iff, andb_true_iff, ustr_eqb_true, Qltb_iff. tauto.
Qed.

Lemma all_key_lt_asym (a b : Item) : all_key_lt a b = true -> all_key_lt b a = false.
Proof.
  intro H. destruct (all_key_lt b a) eqn:E; [|reflexivity].
  apply all_key_lt_iff in H, E.
  destruct H as [H | [H1 H2]], E as [E | [E1 E2]].
  - pose proof (ustr_ltb_trans _ _ _ H E) as C. rewrite ustr_ltb_irrefl in C. discriminate.
  - rewrite E1, ustr_ltb_irrefl in H. discriminate.
  - rewrite H1, ustr_ltb_irrefl in E. discriminate.
  - lra.
Qed.

Lemma all_key_lt_negtrans (a b c : Item) :
  all_key_lt a b = false -> all_key_lt b c = false -> all_key_lt a c = false.
Proof.
  intros Hab Hbc. destruct (all_key_lt a c) eqn:Hac; [|reflexivity]. exfalso.
  apply all_key_lt_iff in Hac.
  assert (Nab : ~ (ustr_ltb (published_sgt a) (published_sgt b) = true
                \/ (published_sgt a = published_sgt b /\ (score a < score b)%Q)))
    by (rewrite <- all_key_lt_iff; congruence).
  assert (Nbc : ~ (ustr_ltb (published_sgt b) (published_sgt c) = true
                \/ (published_sgt b = published_sgt c /\ (score b < score c)%Q)))
    by (rewrite <- all_key_lt_iff; congruence).
  destruct (ustr_trich (published_sgt a) (published_sgt b)) as [T | [T | T]].
  - tauto.
  - destruct Hac as [H | [H1 H2]].
    + apply Nbc. left. rewrite <- T. exact H.
    + apply Nbc. right. split; [congruence|].
      destruct (Qlt_le_dec (score a) (score b)) as [L|L]; [exfalso; apply Nab; right; auto | lra].
  - destruct Hac as [H | [H1 H2]].
    + apply Nbc. left. eapply ustr_ltb_trans; eassumption.
    + apply Nbc. left. rewrite <- H1. exact T.
Qed.

Lemma insert_desc_perm (x : Item) (l : list Item) : Permutation (x :: l) (insert_desc x l).
Proof.
  induction l as [|y r IH]; simpl; [reflexivity|].
  destruct (all_key_lt x y); [|reflexivity].
  rewrite perm_swap. constructor. exact IH.
Qed.

Lemma sort_desc_perm (l : list Item) : Permutation l (sort_desc l).
Proof.
  induction l as [|x r IH]; simpl; [reflexivity|].
  rewrite <- insert_desc_perm. constructor. exact IH.
Qed.

Lemma insert_desc_sorted (x : Item) (l : list Item) :
  Sorted (fun a b => all_key_lt a b = false) l ->
  Sorted (fun a b => all_key_lt a b = false) (insert_desc x l).
Proof.
  induction l as [|y r IH]; intros Hs; simpl.
  - repeat constructor.
  - apply Sorted_inv in Hs as [Hr Hh].
    destruct (all_key_lt x y) eqn:E.
    + constructor; [apply IH; exact Hr|].
      destruct r as [|z r']; simpl.
      * constructor. apply all_key_lt_asym. exact E.
      * inversion Hh; subst. destruct (all_key_lt x z); constructor;
          [assumption | apply all_key_lt_asym; exact E].
    + constructor; [constructor; assumption|]. constructor. exact E.
Qed.

(** The full listing is a reordering of the items, newest [published_sgt]
    first and, for equal stamps, higher score first. *)
Theorem all_items_order (items : list Item) :
  Permutation items (sort_desc items)
  /\ StronglySorted (fun a b => all_key_lt a b = false) (sort_desc items).
Proof.
  split; [apply sort_desc_perm|].
  apply Sorted_StronglySorted; [intros a b c; apply all_key_lt_negtrans|].
  induction items as [|x r IH]; simpl; [constructor|].
  apply insert_desc_sorted. exact IH.
Qed.

(** ** Pagination *)

Lemma firstn_plus {A} (a m : nat) (l : list A) :
  firstn (a + m) l = firstn a l ++ firstn m (skipn a l).
Proof.
  revert l. induction a as [|a IH]; intros l; [reflexivity|].
  destruct l as [|x r]; [destruct m; reflexivity|]. simpl. f_equal. apply IH.
Qed.

Lemma ceil_div_pos (n d : Z) : 0 < d -> n <= ceil_div n d * d /\ (ceil_div n d - 1) * d < n.
Proof.
  intro Hd. unfold ceil_div.
  pose proof (Z.div_mod (- n) d ltac:(lia)) as E.
  pose proof (Z.mod_pos_bound (- n) d Hd) as B.
  set (q := (- n) / d) in *. set (r := (- n) mod d) in *. nia.
Qed.

Lemma page_chunk_eq (l : list Item) (pp p : Z) :
  0 < pp -> 1 <= p ->
  page_chunk l pp p =
  firstn (Z.to_nat (Z.min (p * pp) (Z.of_nat (List.length l)) - Z.min ((p - 1) * pp) (Z.of_nat (List.length l))))
         (skipn (Z.to_nat (Z.min ((p - 1) * pp) (Z.of_nat (List.length l)))) l).
Proof.
  intros Hpp Hp. unfold page_chunk, py_slice, slice_index.
  replace ((p - 1) * pp <? 0) with false by (symmetry; apply Z.ltb_ge; nia).
  replace ((p - 1) * pp + pp <? 0) with false by (symmetry; apply Z.ltb_ge; nia).
  replace ((p - 1) * pp + pp) with (p * pp) by ring. reflexivity.
Qed.

Lemma chunks_prefix (l : list Item) (pp : Z) (k : nat) :
  0 < pp ->
  List.concat (map (page_chunk l pp) (map Z.of_nat (seq 1 k)))
  = firstn (Z.to_nat (Z.min (Z.of_nat k * pp) (Z.of_nat (List.length l)))) l.
Proof.
  intro Hpp. induction k as [|k IH].
  - cbn [seq map List.concat]. replace (Z.min (Z.of_nat 0 * pp) (Z.of_nat (List.length l))) with 0 by lia.
    reflexivity.
  - rewrite seq_S, !map_app, List.concat_app, IH. cbn [map List.concat]. rewrite app_nil_r.
    rewrite page_chunk_eq by lia.
    replace (Z.of_nat (1 + k) - 1) with (Z.of_nat k) by lia.
    replace (Z.of_nat (1 + k)) with (Z.of_nat (S k)) by lia.
    rewrite <- firstn_plus. f_equal. lia.
Qed.

Lemma page_numbers_in (t p : Z) : In p (page_numbers t) -> 1 <= p <= t.
Proof.
  unfold page_numbers. rewrite in_map_iff. intros [k [<- Hk]].
  apply in_seq in Hk. lia.
Qed.

Lemma page_numbers_length (t : Z) : List.length (page_numbers t) = Z.to_nat t.
Proof. unfold page_numbers. rewrite length_map, length_seq. reflexivity. Qed.

Lemma write_pages_dirs fr so fi lo sf items_sorted tz now ws we out_root all_base pp total ps :
  let '(w, o) := write_pages fr so fi lo sf items_sorted tz now ws we out_root all_base pp total ps in
  map fst w = map (page_dir out_root) (firstn (List.length w) ps) /\ (o = None -> List.length w = List.length ps).
Proof.
  induction ps as [|p r IH]; simpl; [split; reflexivity|].
  destruct (render_all_rows _ _ _ _ _ _); [|split; [reflexivity | discriminate]].
  destruct (write_pages _ _ _ _ _ _ _ _ _ _ _ _ _ _ r) as [w o].
  destruct IH as [IH1 IH2]. simpl. split; [rewrite IH1; reflexivity|].
  intro Ho. rewrite IH2 by exact Ho. reflexivity.
Qed.

(** For a positive page size, [build_all_pages] splits the full listing into
    [T] consecutive chunks: [T] is the least page count holding every item (at
    least one page), the chunks put together give the listing back, each holds
    at most [per_page] items and none is empty unless there are no items;
    page [p] is written to its directory in page order, [T] pages in all when
    no row raises. *)
Theorem pages_partition fr so fi lo sf (items : list Item) tz now ws we env out_root (pp : Z) :
  0 < pp ->
  let sorted := sort_desc items in
  let n := Z.of_nat (List.length items) in
  let t := total_pages n pp in
  (1 <= t /\ n <= t * pp /\ (0 < n -> (t - 1) * pp < n))
  /\ List.concat (map (page_chunk sorted pp) (page_numbers t)) = sorted
  /\ Forall (fun p => Z.of_nat (List.length (page_chunk sorted pp p)) <= pp
                      /\ (items <> [] -> page_chunk sorted pp p <> [])) (page_numbers t)
  /\ (let '(w, o) := build_all_pages fr so fi lo sf items tz now ws we env out_root pp in
      map fst w = map (page_dir out_root) (firstn (List.length w) (page_numbers t))
      /\ (o = None -> List.length w = Z.to_nat t)).
Proof.
  intros Hpp sorted n t.
  assert (Hlen : List.length sorted = List.length items) by (symmetry; apply Permutation_length, sort_desc_perm).
  assert (Ht : 1 <= t /\ n <= t * pp /\ (0 < n -> (t - 1) * pp < n)).
  { subst t. unfold total_pages. pose proof (ceil_div_pos n pp Hpp) as [C1 C2].
    split; [lia|]. split; [nia|]. intro Hn. nia. }
  split; [exact Ht|]. split; [|split].
  - unfold page_numbers. rewrite chunks_prefix by exact Hpp.
    apply firstn_all2. rewrite Hlen. fold n. lia.
  - apply Forall_forall. intros p Hp. apply page_numbers_in in Hp.
    rewrite page_chunk_eq by lia. rewrite length_firstn, length_skipn, Hlen. fold n.
    split; [lia|].
    intros Hne E. apply (f_equal (@List.length Item)) in E.
    rewrite length_firstn, length_skipn, Hlen in E. fold n in E.
    assert (0 < n) by (unfold n; destruct items; [contradiction | cbn [List.length]; lia]).
    assert ((p - 1) * pp <= (t - 1) * pp) by (apply Z.mul_le_mono_nonneg_r; lia).
    assert (p * pp = (p - 1) * pp + pp) by ring. cbn [List.length] in E. unfold n in *. lia.
  - unfold build_all_pages. replace (pp =? 0) with false by (symmetry; apply Z.eqb_neq; lia).
    replace (List.length (sort_desc items)) with (List.length items) by (symmetry; exact Hlen).
    fold sorted n t.
    pose proof (write_pages_dirs fr so fi lo sf sorted tz now ws we out_root
                  (url_join (detect_site_base env) (u "all")) pp t (page_numbers t)) as W.
    destruct (write_pages _ _ _ _ _ _ _ _ _ _ _ _ _ _ _) as [w o].
    destruct W as [W1 W2]. split; [exact W1|].
    intro Ho. destruct o; [discriminate|]. rewrite W2, page_numbers_length by reflexivity. reflexivity.
Qed.

Lemma pages_partition_witness :
  0 < 2
  /\ let items := [sample_item "A" "2025-01-01T10:00:00+08:00" 9;
                   sample_item "B" "2025-01-01T09:00:00+08:00" 6;
                   sample_item "C" "2025-01-01T08:00:00+08:00" 5] in
     let sorted := sort_desc items in
     let n := Z.of_nat (List.length items) in
     let t := total_pages n 2 in
     (1 <= t /\ n <= t * 2 /\ (0 < n -> (t - 1) * 2 < n))
     /\ List.concat (map (page_chunk sorted 2) (page_numbers t)) = sorted
     /\ Forall (fun p => Z.of_nat (List.length (page_chunk sorted 2 p)) <= 2
                         /\ (items <> [] -> page_chunk sorted 2 p <> [])) (page_numbers t)
     /\ (let '(w, o) := build_all_pages (fun _ => []) (fun _ => []) (fun _ => None) (fun _ => 0)
                          (fun _ _ => []) items sg_tz sample_now 0 0 None (u "site") 2 in
         map fst w = map (page_dir (u "site")) (firstn (List.length w) (page_numbers t))
         /\ (o = None -> List.length w = Z.to_nat t)).
Proof.
  assert (H : 0 < 2) by lia.
  split; [exact H|].
  exact (pages_partition (fun _ => []) (fun _ => []) (fun _ => None) (fun _ => 0) (fun _ _ => [])
           _ sg_tz sample_now 0 0 None (u "site") 2 H).
Defined.

(** A page size of zero raises [ZeroDivisionError] before any page is
    written; a negative page size gives one page, holding the listing without
    its last [-per_page] items. *)
Theorem pages_nonpositive fr so fi lo sf (items : list Item) tz now ws we env out_root (pp : Z) :
  build_all_pages fr so fi lo sf items tz now ws we env out_root 0 = ([], Some ZeroDivisionError)
  /\ (pp < 0 ->
      page_numbers (total_pages (Z.of_nat (List.length items)) pp) = [1]
      /\ page_chunk (sort_desc items) pp 1
         = firstn (List.length items - Z.to_nat (- pp)) (sort_desc items)).
Proof.
  split; [reflexivity|]. intro Hpp.
  assert (Hlen : List.length (sort_desc items) = List.length items)
    by (symmetry; apply Permutation_length, sort_desc_perm).
  split.
  - unfold total_pages, ceil_div.
    pose proof (Z.div_mod (- Z.of_nat (List.length items)) pp ltac:(lia)) as E.
    pose proof (Z.mod_neg_bound (- Z.of_nat (List.length items)) pp Hpp) as B.
    set (q := (- Z.of_nat (List.length items)) / pp) in *.
    set (r := (- Z.of_nat (List.length items)) mod pp) in *.
    replace (Z.max 1 (- q)) with 1 by nia. reflexivity.
  - unfold page_chunk, py_slice, slice_index. rewrite Hlen.
    replace ((1 - 1) * pp) with 0 by ring. cbn [Z.ltb Z.compare].
    replace (0 + pp <? 0) with true by (symmetry; apply Z.ltb_lt; lia).
    replace (Z.to_nat (Z.min 0 (Z.of_nat (List.length items)))) with O by lia.
    cbn [skipn]. f_equal. lia.
Qed.

(** ** Rendering of the full listing *)







(** ** Fetched items and language routing *)


Lemma lstrip_first_ok_id (l : ustr) : first_ok l = true -> lstrip l = l.
Proof.
  destruct l as [|c r]; [reflexivity|]. cbn [first_ok lstrip]. intro H.
  destruct (is_space c); [discriminate | reflexivity].
Qed.

Lemma strip_idem (l : ustr) : strip (strip l) = strip l.
Proof.
  destruct (strip_ws l) as [F L]. unfold last_ok in L.
  set (t := strip l) in *. unfold strip at 1.
  rewrite (lstrip_first_ok_id t F), (lstrip_first_ok_id (rev t) L), rev_involutive. reflexivity.
Qed.

Lemma attr_str_idem (f : option ustr) : strip (attr_str f) = attr_str f.
Proof. destruct f; [apply strip_idem | reflexivity]. Qed.

Lemma entry_item_shape parse tz ws we src e it :
  entry_item parse tz ws we src e = Ok (Some it) -> fetched_from src it.
Proof.
  unfold entry_item. destruct (safe_parse_dt parse e) as [dt|]; [|discriminate].
  destruct (astimezone _ _ _) as [[utc loc]|x]; cbn [bind]; [|discriminate].
  destruct (negb _); [discriminate|].
  destruct (ustr_eqb (attr_str (e_title e)) []) eqn:T; [discriminate|].
  destruct (ustr_eqb (attr_str (e_link e)) []) eqn:L; [discriminate|].
  cbn [orb]. intro H. injection H as <-.
  unfold fetched_from; cbn.
  repeat split; try apply attr_str_idem.
  - intro E. rewrite E in T. discriminate.
  - intro E. rewrite E in L. discriminate.
Qed.

Lemma entries_items_shape parse tz ws we src es its :
  entries_items parse tz ws we src es = Ok its -> Forall (fetched_from src) its.
Proof.
  revert its. induction es as [|e r IH]; intros its H; cbn [entries_items] in H.
  - injection H as <-. constructor.
  - destruct (entry_item parse tz ws we src e) as [o|x] eqn:E; cbn [bind] in H; [|discriminate].
    destruct (entries_items parse tz ws we src r) as [its'|x] eqn:E2; cbn [bind] in H; [|discriminate].
    injection H as <-. specialize (IH its' eq_refl).
    destruct o as [it|]; [constructor; [eapply entry_item_shape; exact E | exact IH] | exact IH].
Qed.

Lemma fetch_items_log feed parse srcs tz ws we log res :
  fetch_items feed parse srcs tz ws we = (log, res) ->
  (exists k, log = map cfg_url (firstn k srcs))
  /\ (forall its, res = Ok its -> log = map cfg_url srcs).
Proof.
  revert log res. induction srcs as [|s r IH]; intros log res H; cbn [fetch_items] in H.
  - injection H as <- <-. split; [exists O; reflexivity | reflexivity].
  - destruct (entries_items _ _ _ _ _ _) as [its0|x].
    + destruct (fetch_items feed parse r tz ws we) as [log' res'] eqn:E.
      injection H as <- <-. destruct (IH log' res' eq_refl) as [[k Hk] Hok].
      split; [exists (S k); cbn; rewrite Hk; reflexivity|].
      intros its Hits. destruct res' as [rest|x]; [|discriminate].
      cbn. rewrite (Hok rest eq_refl). reflexivity.
    + injection H as <- <-. split; [exists 1%nat; reflexivity | discriminate].
Qed.

Lemma fetch_items_shape feed parse srcs tz ws we log its :
  fetch_items feed parse srcs tz ws we = (log, Ok its) ->
  Forall (fun it => exists src, In src srcs /\ fetched_from src it) its.
Proof.
  revert log its. induction srcs as [|s r IH]; intros log its H; cbn [fetch_items] in H.
  - injection H as <- <-. constructor.
  - destruct (entries_items _ _ _ _ _ _) as [its0|x] eqn:E0; [|discriminate].
    destruct (fetch_items feed parse r tz ws we) as [log' res'] eqn:E.
    destruct res' as [rest|x]; injection H as <- H; [|discriminate].
    subst its. apply Forall_app. split.
    + apply entries_items_shape in E0. eapply Forall_impl; [|exact E0].
      intros it Hit. exists s. split; [left; reflexivity | exact Hit].
    + eapply Forall_impl; [|exact (IH log' rest eq_refl)].
      intros it [src [Hin Hf]]. exists src. split; [right; exact Hin | exact Hf].
Qed.

(** A [fetch_items] run that raises nothing has fetched the URL of each
    source once, in order, and each item it returns comes from one of the
    sources: non-empty stripped title and link, the class and score of its
    title, and the source's name, id, kind and language. *)
Theorem fetch_items_item_shape feed parse srcs tz ws we log its
    (H : fetch_items feed parse srcs tz ws we = (log, Ok its)) :
  log = map cfg_url srcs
  /\ Forall (fun it => exists src, In src srcs /\ fetched_from src it) its.
Proof.
  split; [exact (proj2 (fetch_items_log feed parse srcs tz ws we log (Ok its) H) its eq_refl)|].
  eapply fetch_items_shape. exact H.
Qed.

Lemma fetch_items_item_shape_witness :
  let srcs := match load_sources (fun _ => None) sample_config with Ok s => s | Raise _ => [] end in
  let run := fetch_items (fun _ => [late_entry]) late_parse srcs utc_tz (late_wall - 3600) late_wall in
  let its := match snd run with Ok l => l | Raise _ => [] end in
  run = (fst run, Ok its)
  /\ fst run = map cfg_url srcs
  /\ Forall (fun it => exists src, In src srcs /\ fetched_from src it) its.
Proof.
  intros srcs run its.
  assert (H : run = (fst run, Ok its)) by (vm_compute; reflexivity).
  split; [exact H|]. exact (fetch_items_item_shape _ _ srcs _ _ _ (fst run) its H).
Defined.

Lemma pick_sections_incl (l : list Item) (x : Item) :
  let '(h, b, q) := pick_sections l in In x (h ++ b ++ q) -> In x l.
Proof.
  unfold pick_sections. intro H.
  assert (HI : In x (isort l)).
  { apply in_app_or in H as [H | H]; [|apply in_app_or in H as [H | H]].
    - apply in_firstn_incl in H. apply filter_In in H. tauto.
    - apply in_firstn_incl in H. apply filter_In in H. tauto.
    - apply in_firstn_incl, in_skipn_incl in H. apply filter_In in H. tauto. }
  apply Permutation_in with (isort l); [apply Permutation_sym, isort_perm | exact HI].
Qed.

Lemma sections_of_fetch (P : Item -> Prop) (l : list Item) :
  Forall P l ->
  let '(h, b, q) := pick_sections (dedup l) in Forall P (h ++ b ++ q).
Proof.
  intro HP. pose proof (pick_sections_incl (dedup l)) as Hs.
  destruct (pick_sections (dedup l)) as [[h b] q].
  apply Forall_forall. intros x Hx. rewrite Forall_forall in HP. apply HP.
  unfold dedup in Hs. specialize (Hs x Hx). apply dedup_loop_incl in Hs.
  apply Permutation_in with (isort l); [apply Permutation_sym, isort_perm | exact Hs].
Qed.

Lemma fetch_lang feed parse srcs lg tz ws we log its :
  fetch_items feed parse (filter (fun s => py_eq_str (cfg_lang s) lg) srcs) tz ws we = (log, Ok its) ->
  Forall (from_lang srcs lg) its.
Proof.
  intro H. apply fetch_items_shape in H. eapply Forall_impl; [|exact H].
  intros it [src [Hin Hf]]. apply filter_In in Hin. exists src. tauto.
Qed.

(** A successful run fetches the English sources and then the Chinese ones,
    nothing else; every item of the English sections comes from a source
    whose [lang] is [en], every item of the Chinese sections from one whose
    [lang] is [zh]. *)
Theorem main_run_routes_by_lang feed parse fos config tz now wh srcs log r
    (Hl : load_sources fos config = Ok srcs)
    (H : main_run feed parse fos config tz now wh = (log, Ok r)) :
  log = map cfg_url (filter (fun s => py_eq_str (cfg_lang s) "en") srcs)
        ++ map cfg_url (filter (fun s => py_eq_str (cfg_lang s) "zh") srcs)
  /\ (let '((h, b, q), (h', b', q')) := r in
      Forall (from_lang srcs "en") (h ++ b ++ q) /\ Forall (from_lang srcs "zh") (h' ++ b' ++ q')).
Proof.
  unfold main_run in H. destruct (add_seconds (now + tz now) (- (wh * 3600))); [|discriminate].
  rewrite Hl in H.
  set (en := filter (fun s => py_eq_str (cfg_lang s) "en") srcs) in *.
  set (zh := filter (fun s => py_eq_str (cfg_lang s) "zh") srcs) in *.
  assert (HE : (exists its, (match en with [] => ([], Ok []) | _ => fetch_items feed parse en tz (now - wh * 3600) now end)
                = (map cfg_url en, Ok its) /\ Forall (from_lang srcs "en") its)
             \/ exists log0 e, (match en with [] => ([], Ok []) | _ => fetch_items feed parse en tz (now - wh * 3600) now end) = (log0, Raise e)).
  { destruct en as [|s0 r0] eqn:En.
    - left. exists []. split; [reflexivity | constructor].
    - rewrite <- En. destruct (fetch_items feed parse en tz (now - wh * 3600) now) as [lg0 [its|e]] eqn:F.
      + left. exists its. pose proof (fetch_items_log _ _ _ _ _ _ _ _ F) as [_ L]. rewrite (L its eq_refl).
        split; [reflexivity|]. eapply fetch_lang. exact F.
      + right. exists lg0, e. reflexivity. }
  assert (HZ : (exists its, (match zh with [] => ([], Ok []) | _ => fetch_items feed parse zh tz (now - wh * 3600) now end)
                = (map cfg_url zh, Ok its) /\ Forall (from_lang srcs "zh") its)
             \/ exists log0 e, (match zh with [] => ([], Ok []) | _ => fetch_items feed parse zh tz (now - wh * 3600) now end) = (log0, Raise e)).
  { destruct zh as [|s0 r0] eqn:En.
    - left. exists []. split; [reflexivity | constructor].
    - rewrite <- En. destruct (fetch_items feed parse zh tz (now - wh * 3600) now) as [lg0 [its|e]] eqn:F.
      + left. exists its. pose proof (fetch_items_log _ _ _ _ _ _ _ _ F) as [_ L]. rewrite (L its eq_refl).
        split; [reflexivity|]. eapply fetch_lang. exact F.
      + right. exists lg0, e. reflexivity. }
  destruct HE as [[ie [HE Fe]] | [l0 [e0 HE]]]; rewrite HE in H; [|discriminate].
  destruct HZ as [[iz [HZ Fz]] | [l0 [e0 HZ]]]; rewrite HZ in H; [|discriminate].
  injection H as <- <-. split; [reflexivity|].
  pose proof (sections_of_fetch _ _ Fe) as Se. pose proof (sections_of_fetch _ _ Fz) as Sz.
  destruct (pick_sections (dedup ie)) as [[h b] q].
  destruct (pick_sections (dedup iz)) as [[h' b'] q']. split; assumption.
Qed.

Lemma main_run_routes_by_lang_witness :
  let run := main_run (fun _ => [late_entry]) late_parse (fun _ => None) sample_config utc_tz late_wall 1 in
  let srcs := match load_sources (fun _ => None) sample_config with Ok s => s | Raise _ => [] end in
  let r := match snd run with Ok r => r | Raise _ => (([], [], []), ([], [], [])) end in
  load_sources (fun _ => None) sample_config = Ok srcs
  /\ run = (fst run, Ok r)
  /\ fst run = map cfg_url (filter (fun s => py_eq_str (cfg_lang s) "en") srcs)
               ++ map cfg_url (filter (fun s => py_eq_str (cfg_lang s) "zh") srcs)
  /\ (let '((h, b, q), (h', b', q')) := r in
      Forall (from_lang srcs "en") (h ++ b ++ q) /\ Forall (from_lang srcs "zh") (h' ++ b' ++ q')).
Proof.
  intros run srcs r.
  assert (H1 : load_sources (fun _ => None) sample_config = Ok srcs) by (vm_compute; reflexivity).
  assert (H2 : run = (fst run, Ok r)) by (vm_compute; reflexivity).
  split; [exact H1|]. split; [exact H2|].
  exact (main_run_routes_by_lang _ _ _ _ _ _ _ srcs (fst run) r H1 H2).
Defined.

(** The run of [main_run_routes_by_lang_witness] keeps the late entry as its
    one English headline. *)
Lemma main_run_late_entry_headline :
  let run := main_run (fun _ => [late_entry]) late_parse (fun _ => None) sample_config utc_tz late_wall 1 in
  match snd run with Ok ((h, _, _), _) => List.length h = 1%nat | _ => False end.
Proof. vm_compute. reflexivity. Qed.

(** ** Source configuration shapes *)


(** With [id], [name], [url], [lang] and [kind] present, [weight] defaults to
    1, a number is taken as it is unless its magnitude is at least
    [2^1024 - 2^970] (an integer that [float] cannot convert: [OverflowError]),
    a boolean is 1 or 0, a string is parsed (an
    unparseable one raises [ValueError]), and null, a list or a mapping
    raises [TypeError]. *)
Theorem load_source_weight fos kv i n l g k
    (Hi : lookup_key "id" kv = Some i) (Hn : lookup_key "name" kv = Some n)
    (Hu : lookup_key "url" kv = Some l) (Hg : lookup_key "lang" kv = Some g)
    (Hk : lookup_key "kind" kv = Some k) :
  let cfg w := {| cfg_id := i; cfg_name := n; cfg_url := l; cfg_lang := g; cfg_kind := k;
                  cfg_weight := w |} in
  (lookup_key "weight" kv = None -> load_source fos (YMap kv) = Ok (cfg 1%Q))
  /\ (forall q, lookup_key "weight" kv = Some (YNum q) ->
        load_source fos (YMap kv)
        = if Qle_bool float_overflow_bound q || Qle_bool q (- float_overflow_bound)
          then Raise OverflowError else Ok (cfg q))
  /\ (forall b, lookup_key "weight" kv = Some (YBool b) ->
        load_source fos (YMap kv) = Ok (cfg (if b then 1%Q else 0%Q)))
  /\ (forall s, lookup_key "weight" kv = Some (YStr s) ->
        load_source fos (YMap kv) = match fos s with Some q => Ok (cfg q) | None => Raise ValueError end)
  /\ (forall w, lookup_key "weight" kv = Some w ->
        (w = YNull \/ (exists xs, w = YSeq xs) \/ (exists kv', w = YMap kv')) ->
        load_source fos (YMap kv) = Raise TypeError).
Proof.
  intro cfg. unfold load_source, py_getitem, py_get. rewrite Hi, Hn, Hu, Hg, Hk. cbn [bind].
  repeat split.
  - intro H. rewrite H. reflexivity.
  - intros q H. rewrite H. cbn [bind py_float].
    destruct (Qle_bool float_overflow_bound q || Qle_bool q (- float_overflow_bound)); reflexivity.
  - intros b H. rewrite H. reflexivity.
  - intros s H. rewrite H. cbn [bind py_float]. destruct (fos s); reflexivity.
  - intros w H Hw. rewrite H. cbn [bind].
    destruct Hw as [-> | [[xs ->] | [kv' ->]]]; reflexivity.
Qed.

Lemma load_source_weight_witness :
  lookup_key "id" sample_source_kv = Some (YStr (u "feed1"))
  /\ lookup_key "name" sample_source_kv = Some (YStr (u "Feed One"))
  /\ lookup_key "url" sample_source_kv = Some (YStr (u "https://feed.example/rss"))
  /\ lookup_key "lang" sample_source_kv = Some (YStr (u "en"))
  /\ lookup_key "kind" sample_source_kv = Some (YStr (u "news"))
  /\ let cfg w := {| cfg_id := YStr (u "feed1"); cfg_name := YStr (u "Feed One");
                     cfg_url := YStr (u "https://feed.example/rss"); cfg_lang := YStr (u "en");
                     cfg_kind := YStr (u "news"); cfg_weight := w |} in
     (lookup_key "weight" sample_source_kv = None ->
        load_source (fun _ => None) (YMap sample_source_kv) = Ok (cfg 1%Q))
     /\ (forall q, lookup_key "weight" sample_source_kv = Some (YNum q) ->
           load_source (fun _ => None) (YMap sample_source_kv)
           = if Qle_bool float_overflow_bound q || Qle_bool q (- float_overflow_bound)
             then Raise OverflowError else Ok (cfg q))
     /\ (forall b, lookup_key "weight" sample_source_kv = Some (YBool b) ->
           load_source (fun _ => None) (YMap sample_source_kv) = Ok (cfg (if b then 1%Q else 0%Q)))
     /\ (forall s, lookup_key "weight" sample_source_kv = Some (YStr s) ->
           load_source (fun _ => None) (YMap sample_source_kv)
           = match (fun _ : ustr => @None Q) s with Some q => Ok (cfg q) | None => Raise ValueError end)
     /\ (forall w, lookup_key "weight" sample_source_kv = Some w ->
           (w = YNull \/ (exists xs, w = YSeq xs) \/ (exists kv', w = YMap kv')) ->
           load_source (fun _ => None) (YMap sample_source_kv) = Raise TypeError).
Proof.
  assert (Hi : lookup_key "id" sample_source_kv = Some (YStr (u "feed1"))) by reflexivity.
  assert (Hn : lookup_key "name" sample_source_kv = Some (YStr (u "Feed One"))) by reflexivity.
  assert (Hu : lookup_key "url" sample_source_kv = Some (YStr (u "https://feed.example/rss"))) by reflexivity.
  assert (Hg : lookup_key "lang" sample_source_kv = Some (YStr (u "en"))) by reflexivity.
  assert (Hk : lookup_key "kind" sample_source_kv = Some (YStr (u "news"))) by reflexivity.
  repeat (split; [assumption|]).
  exact (load_source_weight (fun _ => None) sample_source_kv _ _ _ _ _ Hi Hn Hu Hg Hk).
Defined.

Lemma lookup_key_nonempty k kv v : lookup_key k kv = Some v -> truthy (YMap kv) = true.
Proof. destruct kv; [discriminate | reflexivity]. Qed.

(** Malformed configurations: a non-empty document that is not a mapping
    raises [AttributeError]; [sources] set to null, a boolean, a number, a
    non-empty string, a mapping, or a list whose first element is not a
    mapping raises [TypeError]. *)
Theorem load_sources_shape_errors fos :
  (forall doc, truthy doc = true -> (forall kv, doc <> YMap kv) ->
     load_sources fos doc = Raise AttributeError)
  /\ (forall kv v, lookup_key "sources" kv = Some v ->
        (v = YNull \/ (exists b, v = YBool b) \/ (exists q, v = YNum q)) ->
        load_sources fos (YMap kv) = Raise TypeError)
  /\ (forall kv s, lookup_key "sources" kv = Some (YStr s) -> s <> [] ->
        load_sources fos (YMap kv) = Raise TypeError)
  /\ (forall kv key v rest, lookup_key "sources" kv = Some (YMap ((YStr key, v) :: rest)) ->
        load_sources fos (YMap kv) = Raise TypeError)
  /\ (forall kv x rest, lookup_key "sources" kv = Some (YSeq (x :: rest)) -> (forall kv', x <> YMap kv') ->
        load_sources fos (YMap kv) = Raise TypeError).
Proof.
  unfold load_sources. repeat split.
  - intros doc T N. rewrite T. destruct doc; try reflexivity. exfalso. eapply N. reflexivity.
  - intros kv v H Hv. rewrite (lookup_key_nonempty _ _ _ H). cbn [py_get bind]. rewrite H. cbn [bind].
    destruct Hv as [-> | [[b ->] | [q ->]]]; reflexivity.
  - intros kv s H Hs. rewrite (lookup_key_nonempty _ _ _ H). cbn [py_get bind]. rewrite H.
    destruct s as [|c s]; [congruence|]. reflexivity.
  - intros kv key v rest H. rewrite (lookup_key_nonempty _ _ _ H). cbn [py_get bind]. rewrite H. reflexivity.
  - intros kv x rest H N. rewrite (lookup_key_nonempty _ _ _ H). cbn [py_get bind]. rewrite H.
    cbn [bind py_iter map_result]. unfold load_source at 1, py_getitem at 1.
    destruct x; try reflexivity. exfalso. eapply N. reflexivity.
Qed.

(** ** Title normalization invariances *)


Lemma lstrip_spaces_app (p y : ustr) : forallb is_space p = true -> lstrip (p ++ y) = lstrip y.
Proof.
  induction p as [|c r IH]; intro H; [reflexivity|].
  simpl in H. apply andb_true_iff in H as [Hc Hr]. cbn [app lstrip]. rewrite Hc. apply IH, Hr.
Qed.

Lemma lstrip_app (x y : ustr) :
  lstrip (x ++ y) = if forallb is_space x then lstrip y else lstrip x ++ y.
Proof.
  induction x as [|c r IH]; [reflexivity|]. cbn [app lstrip forallb].
  destruct (is_space c); [exact IH | reflexivity].
Qed.

Lemma lstrip_split (s : ustr) : exists p, forallb is_space p = true /\ s = p ++ lstrip s.
Proof.
  induction s as [|c r [p [Hp Hr]]]; [exists []; split; reflexivity|].
  cbn [lstrip]. destruct (is_space c) eqn:E.
  - exists (c :: p). split; [simpl; rewrite E, Hp; reflexivity | simpl; f_equal; exact Hr].
  - exists []. split; reflexivity.
Qed.

Lemma forallb_rev' (f : Z -> bool) (l : ustr) : forallb f (rev l) = forallb f l.
Proof.
  induction l as [|c r IH]; [reflexivity|]. simpl. rewrite forallb_app, IH. simpl.
  rewrite andb_true_r, andb_comm. reflexivity.
Qed.

Lemma strip_split (s : ustr) :
  exists p q, forallb is_space p = true /\ forallb is_space q = true /\ s = p ++ strip s ++ q.
Proof.
  destruct (lstrip_split s) as [p [Hp Hs]]. destruct (lstrip_split (rev (lstrip s))) as [q [Hq Hr]].
  exists p, (rev q). split; [exact Hp|]. split; [rewrite forallb_rev'; exact Hq|].
  unfold strip. rewrite Hs at 1. f_equal.
  apply (f_equal (@rev Z)) in Hr. rewrite rev_involutive, rev_app_distr in Hr. exact Hr.
Qed.

Lemma strip_spaces (p x q : ustr) :
  forallb is_space p = true -> forallb is_space q = true -> strip (p ++ x ++ q) = strip x.
Proof.
  intros Hp Hq. unfold strip. rewrite (lstrip_spaces_app p _ Hp), lstrip_app.
  destruct (forallb is_space x) eqn:Ex.
  - rewrite <- (app_nil_r q), (lstrip_spaces_app q _ Hq).
    rewrite <- (app_nil_r x). rewrite (lstrip_spaces_app x _ Ex). reflexivity.
  - rewrite rev_app_distr, lstrip_spaces_app by (rewrite forallb_rev'; exact Hq). reflexivity.
Qed.

Lemma collapse_first_state (st st' : bool) (x : ustr) :
  first_ok x = true -> collapse_ws st x = collapse_ws st' x.
Proof.
  destruct x as [|c r]; [reflexivity|]. cbn [first_ok collapse_ws]. intro H.
  destruct (is_space c); [discriminate | reflexivity].
Qed.

Lemma lstrip_collapse (st : bool) (x : ustr) : lstrip (collapse_ws st x) = collapse_ws true (lstrip x).
Proof.
  revert st. induction x as [|c r IH]; intro st; [reflexivity|]. cbn [collapse_ws lstrip].
  destruct (is_space c) eqn:E.
  - destruct st; [apply IH|]. cbn [lstrip]. replace (is_space 32) with true by reflexivity. apply IH.
  - cbn [lstrip collapse_ws]. rewrite E. reflexivity.
Qed.

Lemma collapse_app (st : bool) (x y : ustr) :
  collapse_ws st (x ++ y)
  = collapse_ws st x ++ collapse_ws (match rev x with [] => st | c :: _ => is_space c end) y.
Proof.
  revert st. induction x as [|c r IH]; intro st; [reflexivity|].
  cbn [app collapse_ws].
  replace (match rev (c :: r) with [] => st | d :: _ => is_space d end)
    with (match rev r with [] => is_space c | d :: _ => is_space d end)
    by (cbn [rev]; destruct (rev r); reflexivity).
  destruct (is_space c); [destruct st|]; rewrite IH; reflexivity.
Qed.

Lemma collapse_rev (x : ustr) : rev (collapse_ws false x) = collapse_ws false (rev x).
Proof.
  induction x as [|c r IH]; [reflexivity|].
  cbn [rev]. rewrite collapse_app, rev_involutive.
  set (st := match r with [] => false | d :: _ => is_space d end).
  destruct (is_space c) eqn:Ec.
  - assert (A : collapse_ws false (c :: r) = 32 :: collapse_ws true r) by (cbn; rewrite Ec; reflexivity).
    assert (B : collapse_ws st [c] = if st then [] else [32]) by (cbn; rewrite Ec; destruct st; reflexivity).
    rewrite A, B. cbn [rev].
    destruct r as [|d r']; [reflexivity|].
    unfold st. destruct (is_space d) eqn:Ed.
    + assert (C : collapse_ws true (d :: r') = collapse_ws true r') by (cbn; rewrite Ed; reflexivity).
      assert (D : collapse_ws false (d :: r') = 32 :: collapse_ws true r') by (cbn; rewrite Ed; reflexivity).
      rewrite D in IH. rewrite C, app_nil_r, <- IH. reflexivity.
    + rewrite (collapse_first_state true false) by (cbn; rewrite Ed; reflexivity).
      rewrite IH. reflexivity.
  - assert (A : collapse_ws false (c :: r) = c :: collapse_ws false r) by (cbn; rewrite Ec; reflexivity).
    assert (B : collapse_ws st [c] = [c]) by (cbn; rewrite Ec; reflexivity).
    rewrite A, B. cbn [rev]. rewrite IH. reflexivity.
Qed.

Lemma collapse_strip (x : ustr) : collapse_ws false (strip x) = strip (collapse_ws false x).
Proof.
  unfold strip. rewrite lstrip_collapse.
  rewrite (collapse_first_state true false) by apply lstrip_first_ok.
  rewrite collapse_rev, lstrip_collapse.
  rewrite (collapse_first_state true false) by apply lstrip_first_ok.
  rewrite collapse_rev. reflexivity.
Qed.

Lemma normalize_title_collapsed (s : ustr) :
  normalize_title s
  = remove_chars bracket_chars (remove_chars quote_chars (strip (collapse_ws false (lower s)))).
Proof. unfold normalize_title. rewrite collapse_strip. reflexivity. Qed.

Lemma collapse_space_run (st : bool) (w y : ustr) :
  w <> [] -> forallb is_space w = true ->
  collapse_ws st (w ++ y) = (if st then [] else [32]) ++ collapse_ws true y.
Proof.
  revert st. induction w as [|c r IH]; intros st Hne Hw; [congruence|].
  cbn [forallb] in Hw. apply andb_true_iff in Hw as [Hc Hr].
  cbn [app collapse_ws]. rewrite Hc.
  destruct r as [|d r'].
  - destruct st; reflexivity.
  - rewrite (IH true) by (discriminate || exact Hr). destruct st; reflexivity.
Qed.

(** The deduplication key ignores letter case, surrounding whitespace and
    the length and kind of each inner whitespace run; for instance "ÉTF"
    and "étf" get the same key. *)
Theorem normalize_title_ws_case_insensitive (s a b w1 w2 : ustr) :
  normalize_title (lower s) = normalize_title s
  /\ normalize_title (strip s) = normalize_title s
  /\ (w1 <> [] -> w2 <> [] -> forallb is_space w1 = true -> forallb is_space w2 = true ->
      normalize_title (a ++ w1 ++ b) = normalize_title (a ++ w2 ++ b))
  /\ normalize_title [201; 84; 70] = normalize_title [233; 116; 102].
Proof.
  split; [|split; [|split; [|vm_compute; reflexivity]]].
  - unfold normalize_title. rewrite lower_idem. reflexivity.
  - destruct (strip_split s) as [p [q [Hp [Hq Hs]]]].
    assert (E : strip (lower s) = strip (lower (strip s))).
    { rewrite Hs at 1. rewrite lower_spaces_around by assumption. apply strip_spaces; assumption. }
    unfold normalize_title. rewrite E. reflexivity.
  - intros N1 N2 S1 S2. rewrite !normalize_title_collapsed.
    rewrite !lower_space_split by assumption. rewrite !(collapse_app false (lower a)).
    rewrite !(collapse_space_run _ _ _ N1 S1), !(collapse_space_run _ _ _ N2 S2). reflexivity.
Qed.

(** ** Timestamp fallback *)


Lemma try_field_some parse f next d :
  try_field parse f next = Some d ->
  (exists s, f = Some s /\ s <> [] /\ parse s = Some d) \/ next = Some d.
Proof.
  unfold try_field. intro H. destruct f as [s|]; [|right; exact H].
  destruct (ustr_eqb s []) eqn:E; [right; exact H|].
  destruct (parse s) as [d'|] eqn:P; [|right; exact H].
  left. exists s. split; [reflexivity|]. split; [|congruence].
  intro Hs. subst. discriminate.
Qed.

(** [safe_parse_dt] only returns what [parse] gives for a non-empty field;
    a parseable non-empty [published] wins, and an absent, empty or
    unparseable one falls back to [updated], then [pubDate]. *)
Theorem safe_parse_dt_fallback parse e :
  (forall d, safe_parse_dt parse e = Some d ->
     exists s, In (Some s) [e_published e; e_updated e; e_pubDate e] /\ s <> [] /\ parse s = Some d)
  /\ (forall s d, e_published e = Some s -> s <> [] -> parse s = Some d -> safe_parse_dt parse e = Some d)
  /\ (forall s, (e_published e = None \/ e_published e = Some [] \/ (e_published e = Some s /\ parse s = None)) ->
        safe_parse_dt parse e = try_field parse (e_updated e) (try_field parse (e_pubDate e) None)).
Proof.
  unfold safe_parse_dt. repeat split.
  - intros d H.
    destruct (try_field_some _ _ _ _ H) as [[s [Hs R]] | H1]; [exists s; split; [left; congruence | exact R]|].
    destruct (try_field_some _ _ _ _ H1) as [[s [Hs R]] | H2]; [exists s; split; [right; left; congruence | exact R]|].
    destruct (try_field_some _ _ _ _ H2) as [[s [Hs R]] | H3]; [exists s; split; [right; right; left; congruence | exact R]|].
    discriminate.
  - intros s d Hp Hne Hd. unfold try_field at 1. rewrite Hp.
    destruct (ustr_eqb s []) eqn:E; [apply ustr_eqb_true in E; contradiction|]. rewrite Hd. reflexivity.
  - intros s [Hp | [Hp | [Hp Hd]]]; unfold try_field at 1; rewrite Hp; [reflexivity | reflexivity|].
    destruct (ustr_eqb s []); [reflexivity|]. rewrite Hd. reflexivity.
Qed.

(** ** Pager links and page directories *)


Lemma uint_digits_no_slash (d : Decimal.uint) : starts_slash (uint_digits d) = false.
Proof. destruct d; reflexivity. Qed.

Lemma str_int_no_slash (p : Z) : starts_slash (str_int p) = false.
Proof. unfold str_int. destruct (Z.to_int p); [apply uint_digits_no_slash | reflexivity]. Qed.

Lemma path_join2_rel (a b : ustr) :
  a <> [] -> starts_slash b = false ->
  path_join2 a b = a ++ (if starts_slash (rev a) then [] else [47]) ++ b.
Proof.
  intros Ha Hb. unfold path_join2. rewrite Hb.
  replace (ustr_eqb a []) with false by (destruct a; [congruence | reflexivity]).
  destruct (starts_slash (rev a)); reflexivity.
Qed.

Lemma app_ne (a b : ustr) : b <> [] -> a ++ b <> [].
Proof. intros Hb E. apply app_eq_nil in E. tauto. Qed.

Lemma starts_slash_rev_app (a b : ustr) :
  b <> [] -> starts_slash (rev (a ++ b)) = starts_slash (rev b).
Proof.
  intro Hb. rewrite rev_app_distr. destruct (rev b) eqn:E; [|reflexivity].
  apply (f_equal (@rev Z)) in E. rewrite rev_involutive in E. contradiction.
Qed.

(** The pager's link to page [p] is [all_base] followed by the path of page
    [p]'s directory below [out_root/all], with a trailing slash. *)
Theorem pager_links_match_dirs (out_root base : ustr) (p : Z) (H : out_root <> []) :
  page_url base p = base ++ page_url [] p
  /\ page_dir out_root p ++ u "/"
     = out_root ++ (if starts_slash (rev out_root) then [] else [47]) ++ u "all" ++ page_url [] p.
Proof.
  split; [unfold page_url; destruct (p =? 1); reflexivity|].
  unfold page_dir, page_url, path_join. destruct (p =? 1); cbn [fold_left].
  - rewrite path_join2_rel by (exact H || reflexivity). rewrite <- !app_assoc. reflexivity.
  - rewrite (path_join2_rel out_root) by (exact H || reflexivity).
    set (s := if starts_slash (rev out_root) then [] else [47]).
    rewrite (path_join2_rel (out_root ++ s ++ u "all") (u "page"))
      by (repeat apply app_ne; cbn; discriminate || reflexivity).
    rewrite (path_join2_rel (_ ++ _ ++ u "page") (str_int p))
      by ((repeat apply app_ne; cbn; discriminate) || apply str_int_no_slash).
    rewrite !starts_slash_rev_app by (repeat apply app_ne; cbn; discriminate).
    replace (starts_slash (rev (u "all"))) with false by reflexivity.
    replace (starts_slash (rev (u "page"))) with false by reflexivity.
    rewrite <- !app_assoc. reflexivity.
Qed.

Lemma pager_links_match_dirs_witness :
  u "site" <> []
  /\ page_url (u "/voiceofcrypto/all") 3 = u "/voiceofcrypto/all" ++ page_url [] 3
  /\ page_dir (u "site") 3 ++ u "/"
     = u "site" ++ (if starts_slash (rev (u "site")) then [] else [47]) ++ u "all" ++ page_url [] 3.
Proof.
  assert (H : u "site" <> []) by discriminate.
  split; [exact H|]. exact (pager_links_match_dirs (u "site") (u "/voiceofcrypto/all") 3 H).
Defined.
